(** * Slackbot tools (cookbook/slackbot/tools.py): a shallow embedding

    The module under verification is a set of asynchronous tool functions:
    two documentation searches, a release-notes fetcher, a topic dispatcher
    and a code-example retriever.  Every function is modelled as a
    computation in a state-and-exception monad [M]: the state carries the
    one process-wide mutable slot of the module ([tpuf.api_key]) and a
    trace of the calls made to external services; the exception side
    carries Python's exceptions.  The external services themselves (secret
    store, vector-store backend, HTTP, classifier) are deterministic stubs,
    gathered in the record [services].

    Strings are byte strings; the delimiter the code splits on is pure
    ASCII, so splitting bytes and splitting code points agree.  Parsed JSON
    numbers are integers ([Z]); floating-point literals are outside the
    model. *)

From Stdlib Require Import Ascii.
From stdpp Require Import gmap strings list pretty.

Set Warnings "-register-all".

(** ** Python values and exceptions *)

(** The line feed, written ["\n"] in the Python source. *)
Definition LF : ascii := ascii_of_nat 10.
Definition nl : string := String LF "".

(** What [json.loads] produces: [None], [bool], [int], [str], [list],
    [dict] (a dict is kept as its items, in document order). *)
Inductive json : Type :=
  | JNull
  | JBool (b : bool)
  | JNum (z : Z)
  | JStr (s : string)
  | JArr (l : list json)
  | JObj (items : list (string * json)).

(** Hashable Python values, the keys a dict accepts. *)
Inductive pykey : Type :=
  | KNone
  | KBool (b : bool)
  | KInt (z : Z)
  | KStr (s : string).

Inductive exn : Type :=
  | KeyError (k : pykey)
  | IndexError
  | ValueError (msg : string)
  | AttributeError (attr : string)
  | TypeError (msg : string)
  | UpstreamError (what : string).

Inductive result (A : Type) : Type :=
  | Ok (a : A)
  | Raise (e : exn).
Arguments Ok {A} a.
Arguments Raise {A} e.

Definition is_ok {A} (r : result A) : bool :=
  match r with Ok _ => true | Raise _ => false end.

(** ** The state: one mutable slot and the trace of external calls *)

Inductive event : Type :=
  | SecretLoad (name : string)
  | BackendQuery (credential : option string) (queries : list string)
      (namespace : string)
  | HttpGet (url : string)
  | Classify (data : string) (labels : list pykey).

Record world : Type := World {
  api_key : option string;      (* tpuf.api_key *)
  trace : list event            (* oldest call first *)
}.

Definition M (A : Type) : Type := world → result A * world.

Definition ret {A} (a : A) : M A := λ w, (Ok a, w).
Definition raise {A} (e : exn) : M A := λ w, (Raise e, w).
Definition bind {A B} (m : M A) (k : A → M B) : M B :=
  λ w, match m w with
       | (Ok a, w') => k a w'
       | (Raise e, w') => (Raise e, w')
       end.
(** [try: m except: h] — effects of [m] up to the exception persist. *)
Definition try_except {A} (m : M A) (h : exn → M A) : M A :=
  λ w, match m w with
       | (Ok a, w') => (Ok a, w')
       | (Raise e, w') => h e w'
       end.
Definition lift {A} (r : result A) : M A := λ w, (r, w).
Definition emit (e : event) : M unit :=
  λ w, (Ok tt, World (api_key w) (trace w ++ [e])).
Definition get_api_key : M (option string) := λ w, (Ok (api_key w), w).
Definition set_api_key (k : option string) : M unit :=
  λ w, (Ok tt, World k (trace w)).

Notation "'let*' x ':=' m 'in' k" := (bind m (λ x, k))
  (at level 10, x name, m at level 100, k at level 200).

(** ** Python built-ins used by the module *)

(** Truthiness of an [Optional[str]]: [None] and [""] are falsy. *)
Definition truthy (o : option string) : bool :=
  match o with
  | None | Some "" => false
  | Some _ => true
  end.

(** [s[n:]] and [s[:n]]. *)
Fixpoint str_drop (n : nat) (s : string) : string :=
  match n, s with
  | S n', String _ s' => str_drop n' s'
  | _, _ => s
  end.
Fixpoint str_take (n : nat) (s : string) : string :=
  match n, s with
  | S n', String c s' => String c (str_take n' s')
  | _, _ => ""
  end.

(** [s.find(sep)], with [None] for Python's [-1]. *)
Fixpoint str_find (sep s : string) : option nat :=
  if String.prefix sep s then Some 0
  else match s with
       | "" => None
       | String _ s' => S <$> str_find sep s'
       end.

(** The loop of [str.split(sep)]: cut at the leftmost occurrence, go on
    after it.  [fuel] bounds the number of cuts. *)
Fixpoint split_loop (fuel : nat) (sep s : string) : list string :=
  match fuel with
  | 0 => [s]
  | S fuel' =>
      match str_find sep s with
      | None => [s]
      | Some i =>
          str_take i s :: split_loop fuel' sep (str_drop (i + String.length sep) s)
      end
  end.

(** [s.split(sep)]; an empty separator is a [ValueError]. *)
Definition str_split (s sep : string) : result (list string) :=
  match sep with
  | "" => Raise (ValueError "empty separator")
  | _ => Ok (split_loop (String.length s) sep s)
  end.

(** [l[i]] for a non-negative index. *)
Definition list_getitem {A} (l : list A) (i : nat) : result A :=
  match l !! i with
  | Some x => Ok x
  | None => Raise IndexError
  end.

(** Number of positions of [s] at which [sep] occurs. *)
Fixpoint occurrences (sep s : string) : nat :=
  (if String.prefix sep s then 1 else 0) +
  match s with
  | "" => 0
  | String _ s' => occurrences sep s'
  end.


(** The [result] monad, for the pure parts. *)
Global Instance result_ret : MRet result := λ _ a, Ok a.
Global Instance result_bind : MBind result := λ _ _ k r,
  match r with
  | Ok a => k a
  | Raise e => Raise e
  end.

Fixpoint foldl_result {A B} (f : A → B → result A) (a : A) (l : list B)
    : result A :=
  match l with
  | [] => Ok a
  | x :: l' => a' ← f a x; foldl_result f a' l'
  end.

(** *** Parsed JSON: [.get], iteration, hashing, [str()] *)

(** Value of key [key] in the items of a parsed object; as in [json.loads],
    the last of several equal keys counts. *)
Fixpoint obj_lookup (key : string) (items : list (string * json))
    : option json :=
  match items with
  | [] => None
  | (k, v) :: items' =>
      match obj_lookup key items' with
      | Some v' => Some v'
      | None => if decide (k = key) then Some v else None
      end
  end.

(** [v.get(key, default)]: only a dict has the method. *)
Definition py_get (v : json) (key : string) (default : json) : result json :=
  match v with
  | JObj items => Ok (from_option id default (obj_lookup key items))
  | _ => Raise (AttributeError "get")
  end.

(** [iter(v)] run to the end: the elements of a list, the characters of a
    string, the keys of a dict; anything else is not iterable. *)
Fixpoint str_chars (s : string) : list json :=
  match s with
  | "" => []
  | String c s' => JStr (String c "") :: str_chars s'
  end.

Definition py_iter (v : json) : result (list json) :=
  match v with
  | JArr l => Ok l
  | JStr s => Ok (str_chars s)
  | JObj items => Ok ((λ p, JStr p.1) <$> items)
  | _ => Raise (TypeError "object is not iterable")
  end.

(** [hash(v)]: lists and dicts are unhashable. *)
Definition hashable (v : json) : result pykey :=
  match v with
  | JNull => Ok KNone
  | JBool b => Ok (KBool b)
  | JNum z => Ok (KInt z)
  | JStr s => Ok (KStr s)
  | JArr _ | JObj _ => Raise (TypeError "unhashable type")
  end.

(** *** Python dicts with hashable keys, in insertion order *)

Global Instance pykey_eq_dec : EqDecision pykey.
Proof. solve_decision. Defined.

(** Python's [==] on keys: [True == 1] and [False == 0]; apart from that,
    equal keys are identical. *)
Definition key_norm (k : pykey) : pykey :=
  match k with
  | KBool true => KInt 1
  | KBool false => KInt 0
  | _ => k
  end.
Definition key_eqb (a b : pykey) : bool :=
  bool_decide (key_norm a = key_norm b).

Definition pydict : Type := list (pykey * json).

(** [k in d] / [d.get(k)] *)
Fixpoint dict_lookup (k : pykey) (d : pydict) : option json :=
  match d with
  | [] => None
  | (k', v) :: d' => if key_eqb k' k then Some v else dict_lookup k d'
  end.

(** [d[k]] *)
Definition dict_getitem (d : pydict) (k : pykey) : result json :=
  match dict_lookup k d with
  | Some v => Ok v
  | None => Raise (KeyError k)
  end.

(** [d[k] = v]: an equal key keeps its place (and the key object first
    stored) and takes the new value; a new key goes to the end. *)
Fixpoint dict_setitem (d : pydict) (k : pykey) (v : json) : pydict :=
  match d with
  | [] => [(k, v)]
  | (k', v') :: d' =>
      if key_eqb k' k then (k', v) :: d' else (k', v') :: dict_setitem d' k v
  end.

(** [list(d.keys())] *)
Definition dict_keys (d : pydict) : list pykey := d.*1.

(** ** The external collaborators *)

(** An [httpx.Response]: its [.text], and what [.json()] gives (or raises). *)
Record response : Type := Response {
  text : string;
  body_json : result json
}.

(** Deterministic stubs of everything outside the module.  [repr_container]
    is Python's [str()] of a list or dict, which the model does not spell
    out. *)
Record services : Type := Services {
  secret_store : string → result string;
    (* (await Secret.load(name)).get() *)
  backend : option string → list string → string → result string;
    (* multi_query_tpuf(queries, namespace), reading tpuf.api_key *)
  http : string → result response;
    (* await client.get(url) *)
  classifier : string → list pykey → result pykey;
    (* await marvin.classify_async(data=..., labels=...) *)
  repr_container : json → string
}.

(** What calling a registered handler yields: a plain value, or a coroutine
    still to be awaited. *)
Inductive maybe_coro : Type :=
  | Plain (v : string)
  | Coroutine (c : M string).

Definition handler : Type := M maybe_coro.

(** An [async def]: the call runs nothing and returns the coroutine. *)
Definition async_def (body : M string) : handler := ret (Coroutine body).

(** [tool_map[topic]] *)
Definition tool_getitem (tm : gmap string handler) (topic : string)
    : result handler :=
  match tm !! topic with
  | Some h => Ok h
  | None => Raise (KeyError (KStr topic))
  end.

Definition base_url : string :=
  "https://raw.githubusercontent.com/zzstoatzz/prefect-code-examples/main".
Definition manifest_url : string := base_url +:+ "/views/README.json".
Definition release_notes_url : string :=
  "https://raw.githubusercontent.com/PrefectHQ/prefect/main/RELEASE-NOTES.md".

(** ** The module
    ([@task] only registers the function with the orchestrator; a call runs
    the body.) *)

Section Tools.
Context (env : services).

Definition Secret_load_get (name : string) : M string :=
  let* _ := emit (SecretLoad name) in
  lift (secret_store env name).

Definition multi_query_tpuf (queries : list string) (namespace : string)
    : M string :=
  let* k := get_api_key in
  let* _ := emit (BackendQuery k queries namespace) in
  lift (backend env k queries namespace).

Definition client_get (url : string) : M response :=
  let* _ := emit (HttpGet url) in
  lift (http env url).

Definition classify_async (data : string) (labels : list pykey) : M pykey :=
  let* _ := emit (Classify data labels) in
  lift (classifier env data labels).

Definition search_prefect_2x_docs (queries : list string) : M string :=
  let* k := get_api_key in
  let* _ := (if negb (truthy k)
             then let* s := Secret_load_get "tpuf-api-key" in
                  set_api_key (Some s)
             else ret tt) in
  multi_query_tpuf queries "prefect-2".

Definition search_prefect_3x_docs (queries : list string) : M string :=
  let* k := get_api_key in
  let* _ := (if negb (truthy k)
             then let* s := Secret_load_get "tpuf-api-key" in
                  set_api_key (Some s)
             else ret tt) in
  multi_query_tpuf queries "prefect-3".

Definition get_latest_release_notes : M string :=
  let* response := client_get release_notes_url in
  let* sections := lift (str_split (text response) (nl +:+ "## ")) in
  lift (list_getitem sections 1).

Definition tool_map : gmap string handler :=
  {[ "latest_prefect_version" := async_def get_latest_release_notes ]}.

(** [get_info] over an arbitrary registry; the module's own is [tool_map]. *)
Definition get_info_in (tm : gmap string handler) (topic : string)
    : M string :=
  try_except
    (let* h := lift (tool_getitem tm topic) in
     let* called := h in
     match called with
     | Coroutine c => c
     | Plain v => ret v
     end)
    (λ e, match e with
          | KeyError _ => raise (ValueError ("Invalid topic: " +:+ topic))
          | _ => raise e
          end).

Definition get_info (topic : string) : M string := get_info_in tool_map topic.

(** [str(v)] as an f-string field formats it. *)
Definition py_str (v : json) : string :=
  match v with
  | JNull => "None"
  | JBool true => "True"
  | JBool false => "False"
  | JNum z => pretty z
  | JStr s => s
  | JArr _ | JObj _ => repr_container env v
  end.

(** One round of the inner [for]: key, value, store. *)
Definition add_item (d : pydict) (item : json) : result pydict :=
  description ← py_get item "description" JNull;
  relative_path ← py_get item "relative_path" JNull;
  key ← hashable description;
  Ok (dict_setitem d key relative_path).

(** One round of the outer [for]. *)
Definition add_category (d : pydict) (category : json) : result pydict :=
  examples ← py_get category "examples" (JArr []);
  items ← py_iter examples;
  foldl_result add_item d items.

(** The dict comprehension building [example_items]. *)
Definition example_items (manifest : json) : result pydict :=
  categories ← py_get manifest "categories" (JArr []);
  cats ← py_iter categories;
  foldl_result add_category [] cats.

Definition get_prefect_code_example (related_to : string) : M string :=
  let* response := client_get (base_url +:+ "/views/README.json") in
  let* manifest := lift (body_json response) in
  let* items := lift (example_items manifest) in
  let* key := classify_async related_to (dict_keys items) in
  let* path := lift (dict_getitem items key) in
  let best_link := base_url +:+ "/" +:+ py_str path in
  let* fetched := client_get best_link in
  let code_example_content := text fetched in
  ret ("LINK:" +:+ nl +:+ best_link +:+ nl +:+ nl +:+ " EXAMPLE:" +:+ nl
       +:+ code_example_content).
End Tools.

(** ** Vocabulary of the specification *)

(** The section delimiter of the release notes, ["\n## "]. *)
Definition delimiter : string := nl +:+ "## ".

(** The release-notes error kind of the specification is Python's
    [IndexError]; the dispatcher's [InvalidTopic] is the [ValueError] it
    raises; [ClassificationMismatch] is the [KeyError] of the dict access. *)
Definition MalformedDocument : exn := IndexError.
Definition InvalidTopic (topic : string) : exn :=
  ValueError ("Invalid topic: " +:+ topic).
Definition ClassificationMismatch (label : pykey) : exn := KeyError label.

(** The one parameterised search of which the two tools are instances. *)
Definition search (env : services) (namespace : string)
    (queries : list string) : M string :=
  let* k := get_api_key in
  let* _ := (if negb (truthy k)
             then let* s := Secret_load_get env "tpuf-api-key" in
                  set_api_key (Some s)
             else ret tt) in
  multi_query_tpuf env queries namespace.

(** The slot once the credential step of a search is through. *)
Definition credential_after (env : services) (w : world) : option string :=
  if truthy (api_key w) then api_key w
  else match secret_store env "tpuf-api-key" with
       | Ok s => Some s
       | Raise _ => api_key w
       end.

(** The credential can be had: it is cached, or the store delivers it. *)
Definition credential_available (env : services) (w : world) : bool :=
  truthy (api_key w) || is_ok (secret_store env "tpuf-api-key").

(** ... and, once had, it stays: it is cached, or the store delivers a
    non-empty one. *)
Definition credential_sticks (env : services) (w : world) : bool :=
  truthy (api_key w) ||
  match secret_store env "tpuf-api-key" with
  | Ok s => truthy (Some s)
  | Raise _ => false
  end.

(** The calls the credential step of a search makes. *)
Definition credential_calls (w : world) : list event :=
  if truthy (api_key w) then [] else [SecretLoad "tpuf-api-key"].

Definition is_secret_load (e : event) : bool :=
  match e with SecretLoad _ => true | _ => false end.
Definition is_http_get (e : event) : bool :=
  match e with HttpGet _ => true | _ => false end.

(** How often the trace went to the Secret Provider. *)
Definition secret_fetches (t : list event) : nat :=
  length (List.filter is_secret_load t).

(** Two calls in a row, the second in the state the first one left. *)
Definition twice {A} (m : M A) (w : world) : result A * result A * world :=
  let '(r1, w1) := m w in
  let '(r2, w2) := m w1 in
  (r1, r2, w2).

(** The format of the code-example answer as the specification words it:
    a LINK: line, the URL, a blank line, an EXAMPLE: line, the content. *)
Definition spec_code_example_text (url content : string) : string :=
  "LINK:" +:+ nl +:+ url +:+ nl +:+ nl +:+ "EXAMPLE:" +:+ nl +:+ content.

(** The format the code produces. *)
Definition code_example_text (url content : string) : string :=
  "LINK:" +:+ nl +:+ url +:+ nl +:+ nl +:+ " EXAMPLE:" +:+ nl +:+ content.

(** *** The manifest, read the way the specification describes it *)

Definition field (key : string) (default : json) (v : json) : json :=
  match v with
  | JObj items => from_option id default (obj_lookup key items)
  | _ => default
  end.

Definition elements (v : json) : list json :=
  match v with
  | JArr l => l
  | _ => []
  end.

(** All examples of all categories, as (description, relative_path), in
    document order; absent "categories" and "examples" count as empty. *)
Definition example_pair (item : json) : json * json :=
  (field "description" JNull item, field "relative_path" JNull item).
Definition category_examples (category : json) : list (json * json) :=
  item ← elements (field "examples" (JArr []) category); [example_pair item].
Definition spec_examples (manifest : json) : list (json * json) :=
  elements (field "categories" (JArr []) manifest) ≫= category_examples.

(** Last-write-wins: the path of the last example whose description equals
    [k]. *)
Fixpoint last_binding (k : pykey) (l : list (json * json)) : option json :=
  match l with
  | [] => None
  | (d, p) :: l' =>
      match last_binding k l' with
      | Some p' => Some p'
      | None =>
          match hashable d with
          | Ok k' => if key_eqb k' k then Some p else None
          | Raise _ => None
          end
      end
  end.

Definition is_obj (v : json) : bool :=
  match v with JObj _ => true | _ => false end.
Definition is_arr (v : json) : bool :=
  match v with JArr _ => true | _ => false end.

(** The expected shape: an object whose "categories", if there, is an array
    of objects whose "examples", if there, is an array of objects whose
    "description", if there, is a scalar. *)
Definition item_shape (item : json) : bool :=
  is_obj item && is_ok (hashable (field "description" JNull item)).
Definition category_shape (category : json) : bool :=
  is_obj category &&
  let examples := field "examples" (JArr []) category in
  is_arr examples && forallb item_shape (elements examples).
Definition manifest_shape (manifest : json) : bool :=
  is_obj manifest &&
  let categories := field "categories" (JArr []) manifest in
  is_arr categories && forallb category_shape (elements categories).

(** The world after the one GET of the release notes. *)
Definition after_notes (w : world) : world :=
  World (api_key w) (trace w ++ [HttpGet release_notes_url]).

(** The worlds along a run of the code-example retriever: after the GET of
    the manifest, after the classification, after the GET of the example. *)
Definition after_manifest (w : world) : world :=
  World (api_key w) (trace w ++ [HttpGet manifest_url]).
Definition after_classify (related_to : string) (items : pydict) (w : world)
    : world :=
  World (api_key w)
    (trace w ++ [HttpGet manifest_url; Classify related_to (dict_keys items)]).
Definition after_fetch (related_to : string) (items : pydict) (link : string)
    (w : world) : world :=
  World (api_key w)
    (trace w ++ [HttpGet manifest_url; Classify related_to (dict_keys items);
                 HttpGet link]).

(** Calling a registered handler and awaiting what it returns. *)
Definition run_handler (h : handler) : M string :=
  let* called := h in
  match called with
  | Coroutine c => c
  | Plain v => ret v
  end.

(** ** Stub services and sample inputs *)

Definition w0 : world := World None [].

Definition no_page : result response := Raise (UpstreamError "404 Not Found").

(** A backend that answers with what it was asked. *)
Definition echo_backend (k : option string) (queries : list string)
    (namespace : string) : result string :=
  Ok (namespace +:+ ":" +:+ String.concat "," queries).

Definition stub_services (secret : result string)
    (pages : string → result response) (label : result pykey) : services :=
  Services (λ _, secret) echo_backend pages (λ _ _, label) (λ _, "<container>").

Definition plain_page (body : string) : response :=
  Response body (Raise (ValueError "Expecting value")).

(** Only the release notes are served. *)
Definition notes_pages (doc : string) (url : string) : result response :=
  if decide (url = release_notes_url) then Ok (plain_page doc) else no_page.

Definition notes_services (doc : string) : services :=
  stub_services (Ok "secret") (notes_pages doc) (Raise (UpstreamError "unused")).

Definition doc_no_section : string := "# Release notes".
Definition doc_one_section : string :=
  "# Release notes" +:+ delimiter +:+ "3.0" +:+ nl +:+ "first release".
Definition doc_one_empty_section : string := "# Release notes" +:+ delimiter.
Definition doc_two_sections : string :=
  "# Release notes" +:+ delimiter +:+ "3.1" +:+ nl +:+ "fixes"
  +:+ delimiter +:+ "3.0" +:+ nl +:+ "first release".

(** The scenario of the code-example retriever: one category, one example. *)
Definition dq : string := String (ascii_of_nat 34) "".
Definition quoted (s : string) : string := dq +:+ s +:+ dq.

Definition scenario_manifest : json :=
  JObj [("categories",
         JArr [JObj [("examples",
                      JArr [JObj [("description", JStr "retry a flow");
                                  ("relative_path", JStr "examples/retry.py")]])]])].

Definition scenario_manifest_text : string :=
  "{" +:+ quoted "categories" +:+ ":[{" +:+ quoted "examples" +:+ ":[{"
  +:+ quoted "description" +:+ ":" +:+ quoted "retry a flow" +:+ ","
  +:+ quoted "relative_path" +:+ ":" +:+ quoted "examples/retry.py"
  +:+ "}]}]}".

Definition scenario_link : string := base_url +:+ "/examples/retry.py".

Definition manifest_pages (raw : string) (manifest : json) (content : string)
    (url : string) : result response :=
  if decide (url = manifest_url)
  then Ok (Response raw (Ok manifest))
  else if decide (url = scenario_link) then Ok (plain_page content)
  else no_page.

Definition scenario_services (content : string) : services :=
  stub_services (Ok "secret")
    (manifest_pages scenario_manifest_text scenario_manifest content)
    (Ok (KStr "retry a flow")).

Definition scenario_question : string := "how do I retry a failed flow".

(** A manifest with a description used twice, a category without
    "examples" and an example without "relative_path". *)
Definition manifest_with_duplicate : json :=
  JObj [("categories",
         JArr [JObj [("examples",
                      JArr [JObj [("description", JStr "retry a flow");
                                  ("relative_path", JStr "old/retry.py")];
                            JObj [("description", JStr "cache a task")]])];
               JObj [("name", JStr "empty category")];
               JObj [("examples",
                      JArr [JObj [("description", JStr "retry a flow");
                                  ("relative_path", JStr "new/retry.py")]])]])].

(** A classifier that answers outside the labels it was offered. *)
Definition stray_services : services :=
  stub_services (Ok "secret")
    (manifest_pages scenario_manifest_text scenario_manifest "")
    (Ok (KStr "deploy a flow")).

(** A manifest without categories, and a classifier that still answers. *)
Definition empty_manifest_services : services :=
  stub_services (Ok "secret") (manifest_pages "{}" (JObj []) "")
    (Ok (KStr "retry a flow")).

(** A store holding an empty credential; a store with a usable one. *)
Definition empty_secret_services : services :=
  stub_services (Ok "") (λ _, no_page) (Raise (UpstreamError "unused")).
Definition good_secret_services : services :=
  stub_services (Ok "tpuf-key") (λ _, no_page) (Raise (UpstreamError "unused")).

(** A transport whose failure is a [KeyError]. *)
Definition keyerror_services : services :=
  stub_services (Ok "secret") (λ _, Raise (KeyError (KStr "content-type")))
    (Raise (UpstreamError "unused")).

(** A registry with a synchronous handler that raises [KeyError]. *)
Definition faulty_tool_map : gmap string handler :=
  {[ "uptime" := raise (KeyError (KStr "boot_time")) ]}.


(** ** Sessions of calls, event counts, handlers of both kinds *)

Inductive doc_version : Type := V2 | V3.

(** One call of the search tool of a documentation version. *)
Definition search_tool (env : services) (call : doc_version * list string)
    : M string :=
  match call.1 with
  | V2 => search_prefect_2x_docs env call.2
  | V3 => search_prefect_3x_docs env call.2
  end.

(** Independent calls one after the other: each starts in the world its
    predecessor left, whether that one returned or raised. *)
Fixpoint session (env : services) (calls : list (doc_version * list string))
    (w : world) : world :=
  match calls with
  | [] => w
  | call :: calls' => session env calls' (search_tool env call w).2
  end.

Definition is_backend_query (e : event) : bool :=
  match e with BackendQuery _ _ _ => true | _ => false end.
Definition is_classify (e : event) : bool :=
  match e with Classify _ _ => true | _ => false end.

Definition backend_queries (t : list event) : nat :=
  length (List.filter is_backend_query t).
Definition http_gets (t : list event) : nat :=
  length (List.filter is_http_get t).
Definition classifications (t : list event) : nat :=
  length (List.filter is_classify t).

Definition is_key_error (e : exn) : bool :=
  match e with KeyError _ => true | _ => false end.

(** A plain [def]: the call runs the body and returns its value. *)
Definition sync_def (body : M string) : handler :=
  let* v := body in
  ret (Plain v).

(** No two keys of the list are equal in Python's sense. *)
Fixpoint distinct_keys (l : list pykey) : bool :=
  match l with
  | [] => true
  | k :: l' => forallb (λ k', negb (key_eqb k k')) l' && distinct_keys l'
  end.

(** [k in d] *)
Definition dict_contains (k : pykey) (d : pydict) : bool :=
  match dict_lookup k d with Some _ => true | None => false end.

(** Each key once, at the place of its first appearance. *)
Fixpoint keep_first (l : list pykey) : list pykey :=
  match l with
  | [] => []
  | k :: l' => k :: List.filter (λ k', negb (key_eqb k k')) (keep_first l')
  end.

(** The descriptions of all examples of all categories that can be keys,
    in document order. *)
Definition description_keys (manifest : json) : list pykey :=
  omap (λ p : json * json,
          match hashable p.1 with Ok k => Some k | Raise _ => None end)
    (spec_examples manifest).

(** Neither a list, a string nor a dict. *)
Definition not_iterable (v : json) : bool :=
  match v with
  | JNull | JBool _ | JNum _ => true
  | _ => false
  end.

(** More stubs: a store that is down, manifests that are off the shape. *)
Definition failing_secret_services : services :=
  stub_services (Raise (UpstreamError "secret store down")) (λ _, no_page)
    (Raise (UpstreamError "unused")).

Definition down_services : services :=
  stub_services (Ok "secret") (λ _, no_page) (Ok (KStr "retry a flow")).

Definition manifest_without_path : json :=
  JObj [("categories",
         JArr [JObj [("examples",
                      JArr [JObj [("description", JStr "retry a flow")]])]])].

Definition without_path_services : services :=
  stub_services (Ok "secret")
    (manifest_pages "{}" manifest_without_path "") (Ok (KStr "retry a flow")).

Definition refusing_classifier_services : services :=
  stub_services (Ok "secret")
    (manifest_pages scenario_manifest_text scenario_manifest "")
    (Raise (UpstreamError "classifier down")).

(** ** The manifest as the specification reads it
    A JSON object is a finite map from names to values; a later entry of
    the same name replaces an earlier one.  These readings do not go
    through the accessors of the code ([py_get], [hashable], [dict_lookup]);
    the comprehension is compared with them. *)

Definition obj_map (items : list (string * json)) : gmap string json :=
  list_to_map (reverse items).

(** The value of a name in an object, or the default. *)
Definition member (name : string) (default : json) (v : json) : json :=
  match v with
  | JObj items => from_option id default (obj_map items !! name)
  | _ => default
  end.

(** A scalar as the dict key it makes; lists and objects make none. *)
Definition scalar_key (v : json) : option pykey :=
  match v with
  | JNull => Some KNone
  | JBool b => Some (KBool b)
  | JNum z => Some (KInt z)
  | JStr s => Some (KStr s)
  | JArr _ | JObj _ => None
  end.

(** The number a key counts as, if it is one ([True] is 1, [False] is 0). *)
Definition key_number (k : pykey) : option Z :=
  match k with
  | KBool true => Some 1%Z
  | KBool false => Some 0%Z
  | KInt z => Some z
  | KNone | KStr _ => None
  end.

(** Two keys name the same dict entry. *)
Definition same_key (a b : pykey) : bool :=
  match a, b with
  | KNone, KNone => true
  | KStr s, KStr t => String.eqb s t
  | _, _ =>
      match key_number a, key_number b with
      | Some x, Some y => Z.eqb x y
      | _, _ => false
      end
  end.

(** All examples of all categories as (description, relative_path), in
    document order; a missing "categories" or "examples" is the empty
    list, a missing description or path is [null]. *)
Definition all_examples (manifest : json) : list (json * json) :=
  category ← elements (member "categories" (JArr []) manifest);
  item ← elements (member "examples" (JArr []) category);
  [(member "description" JNull item, member "relative_path" JNull item)].

(** Last write wins: the path of the last example described by [k]. *)
Fixpoint last_path (k : pykey) (l : list (json * json)) : option json :=
  match l with
  | [] => None
  | (description, path) :: l' =>
      match last_path k l' with
      | Some later => Some later
      | None =>
          match scalar_key description with
          | Some k' => if same_key k' k then Some path else None
          | None => None
          end
      end
  end.

(** Each key once, where it first appears. *)
Fixpoint first_appearances (l : list pykey) : list pykey :=
  match l with
  | [] => []
  | k :: l' =>
      k :: List.filter (λ k', negb (same_key k k')) (first_appearances l')
  end.

(** The descriptions of the manifest, each once, in order of appearance. *)
Definition label_list (manifest : json) : list pykey :=
  first_appearances (omap (λ p : json * json, scalar_key p.1)
                       (all_examples manifest)).

(** The expected shape, in the same reading. *)
Definition example_ok (item : json) : bool :=
  is_obj item
  && match scalar_key (member "description" JNull item) with
     | Some _ => true
     | None => false
     end.
Definition category_ok (category : json) : bool :=
  is_obj category
  && is_arr (member "examples" (JArr []) category)
  && forallb example_ok (elements (member "examples" (JArr []) category)).
Definition expected_shape (manifest : json) : bool :=
  is_obj manifest
  && is_arr (member "categories" (JArr []) manifest)
  && forallb category_ok (elements (member "categories" (JArr []) manifest)).

(** The claim of the specification about a returned link: its path is a
    value of the flattened mapping. *)
Definition path_is_value (link : string) (items : pydict) : Prop :=
  ∃ k path, (k, JStr path) ∈ items ∧ link = base_url +:+ "/" +:+ path.

(** ** Counting the assignments to the slot
    The search once more, over a world with a counter that goes up with
    every assignment to [tpuf.api_key]; everything else is lifted as it
    is. *)

Definition counted (A : Type) : Type := world * nat → result A * (world * nat).

Definition ret_c {A} (a : A) : counted A := λ s, (Ok a, s).
Definition bind_c {A B} (m : counted A) (k : A → counted B) : counted B :=
  λ s, match m s with
       | (Ok a, s') => k a s'
       | (Raise e, s') => (Raise e, s')
       end.
Definition lift_c {A} (m : M A) : counted A :=
  λ s, match m s.1 with (r, w') => (r, (w', s.2)) end.
Definition assign_api_key (k : option string) : counted unit :=
  λ s, (Ok tt, (World k (trace s.1), S s.2)).

Definition search_counted (env : services) (namespace : string)
    (queries : list string) : counted string :=
  bind_c (lift_c get_api_key) (λ k,
  bind_c (if negb (truthy k)
          then bind_c (lift_c (Secret_load_get env "tpuf-api-key"))
                 (λ s, assign_api_key (Some s))
          else ret_c tt) (λ _,
  lift_c (multi_query_tpuf env queries namespace))).

Definition twice_counted {A} (m : counted A) (s : world * nat)
    : result A * result A * (world * nat) :=
  let '(r1, s1) := m s in
  let '(r2, s2) := m s1 in
  (r1, r2, s2).

(** Visits to the store and assignments to the slot that two searches in
    a row make, by the slot before the first and what the store holds. *)
Definition fetches_of_two (env : services) (w : world) : nat :=
  if credential_sticks env w then length (credential_calls w) else 2.
Definition writes_of_two (env : services) (w : world) : nat :=
  if truthy (api_key w) then 0
  else match secret_store env "tpuf-api-key" with
       | Ok s => if truthy (Some s) then 1 else 2
       | Raise _ => 0
       end.

(** A site that serves the manifest without paths, and something under
    [base_url/None]. *)
Definition none_path_pages (url : string) : result response :=
  if decide (url = manifest_url)
  then Ok (Response "{}" (Ok manifest_without_path))
  else if decide (url = base_url +:+ "/None")
       then Ok (plain_page "404: Not Found")
       else no_page.

Definition none_path_services : services :=
  stub_services (Ok "secret") none_path_pages (Ok (KStr "retry a flow")).

(** * Properties *)

(** ** Sample runs *)

Example split_three_sections :
  str_split doc_two_sections (nl +:+ "## ")
  = Ok ["# Release notes"; "3.1" +:+ nl +:+ "fixes";
        "3.0" +:+ nl +:+ "first release"].
Proof. reflexivity. Qed.

Example split_trailing_delimiter :
  str_split doc_one_empty_section (nl +:+ "## ") = Ok ["# Release notes"; ""].
Proof. reflexivity. Qed.

Example split_leftmost_first : str_split "aXXXbXX" "XX" = Ok ["a"; "Xb"; ""].
Proof. reflexivity. Qed.

Example split_empty_separator :
  str_split "abc" "" = Raise (ValueError "empty separator").
Proof. reflexivity. Qed.

Example notes_without_section :
  get_info (notes_services doc_no_section) "latest_prefect_version" w0
  = (Raise IndexError, after_notes w0).
Proof. reflexivity. Qed.

Example notes_with_two_sections :
  get_info (notes_services doc_two_sections) "latest_prefect_version" w0
  = (Ok ("3.1" +:+ nl +:+ "fixes"), after_notes w0).
Proof. reflexivity. Qed.

Example sync_handler_keyerror :
  get_info_in faulty_tool_map "uptime" w0
  = (Raise (ValueError "Invalid topic: uptime"), w0).
Proof. reflexivity. Qed.

Example flatten_with_duplicate :
  example_items manifest_with_duplicate
  = Ok [(KStr "retry a flow", JStr "new/retry.py"); (KStr "cache a task", JNull)].
Proof. reflexivity. Qed.

Example flatten_not_an_object :
  example_items (JArr []) = Raise (AttributeError "get").
Proof. reflexivity. Qed.

Example flatten_true_is_one :
  foldl_result add_item []
    [JObj [("description", JBool true); ("relative_path", JStr "a.py")];
     JObj [("description", JNum 1); ("relative_path", JStr "b.py")]]
  = Ok [(KBool true, JStr "b.py")].
Proof. reflexivity. Qed.

Example scenario_run :
  get_prefect_code_example (scenario_services "print(1)") scenario_question w0
  = (Ok ("LINK:" +:+ nl +:+ scenario_link +:+ nl +:+ nl +:+ " EXAMPLE:" +:+ nl
         +:+ "print(1)"),
     after_fetch scenario_question
       [(KStr "retry a flow", JStr "examples/retry.py")] scenario_link w0).
Proof. reflexivity. Qed.

(** ** Strings *)

Section StringFacts.
Implicit Types (s p a r : string) (c : ascii).

Lemma append_cons c a r : String c a +:+ r = String c (a +:+ r).
Proof. reflexivity. Qed.

Lemma append_empty_l r : "" +:+ r = r.
Proof. reflexivity. Qed.

Lemma append_assoc a p r : (a +:+ p) +:+ r = a +:+ p +:+ r.
Proof.
  induction a as [|c a IH]; [reflexivity|].
  rewrite !append_cons. by rewrite IH.
Qed.

Lemma length_append a r :
  String.length (a +:+ r) = String.length a + String.length r.
Proof.
  induction a as [|c a IH]; [reflexivity|].
  rewrite append_cons. simpl. by rewrite IH.
Qed.

Lemma prefix_empty_l s : String.prefix "" s = true.
Proof. by destruct s. Qed.

Lemma prefix_append p r : String.prefix p (p +:+ r) = true.
Proof.
  induction p as [|c p IH]; [apply prefix_empty_l|].
  rewrite append_cons. simpl. by destruct (ascii_dec c c).
Qed.

Lemma prefix_cut p s :
  String.prefix p s = true → s = p +:+ str_drop (String.length p) s.
Proof.
  revert s. induction p as [|c p IH]; intros s H.
  - by destruct s.
  - destruct s as [|c' s]; [discriminate|]. simpl in H.
    destruct (ascii_dec c c') as [->|]; [|discriminate].
    rewrite append_cons. simpl. f_equal. by apply IH.
Qed.

Lemma prefix_weaken p a r :
  String.prefix p a = true → String.prefix p (a +:+ r) = true.
Proof.
  revert a. induction p as [|c p IH]; intros a H; [apply prefix_empty_l|].
  destruct a as [|c' a]; [discriminate|]. simpl in H.
  rewrite append_cons. simpl.
  destruct (ascii_dec c c'); [by apply IH | discriminate].
Qed.

Lemma prefix_empty p : p ≠ "" → String.prefix p "" = false.
Proof. by destruct p. Qed.

Lemma str_take_drop n s : s = str_take n s +:+ str_drop n s.
Proof.
  revert s. induction n as [|n IH]; intros [|c s]; try reflexivity.
  simpl. rewrite append_cons. f_equal. apply IH.
Qed.

Lemma str_take_append a r : str_take (String.length a) (a +:+ r) = a.
Proof.
  induction a as [|c a IH]; [by destruct r|].
  rewrite append_cons. simpl. by rewrite IH.
Qed.

Lemma str_drop_append a r n :
  str_drop (String.length a + n) (a +:+ r) = str_drop n r.
Proof.
  induction a as [|c a IH]; [reflexivity|].
  rewrite append_cons. simpl. apply IH.
Qed.

Lemma str_drop_append_all a r : str_drop (String.length a) (a +:+ r) = r.
Proof.
  rewrite <- (Nat.add_0_r (String.length a)), str_drop_append.
  by destruct r.
Qed.

Lemma length_str_take n s : n ≤ String.length s → String.length (str_take n s) = n.
Proof.
  revert s. induction n as [|n IH]; intros [|c s] H; simpl in *; try lia;
    try reflexivity.
  rewrite IH; lia.
Qed.

(** *** [find] and [split] for any separator *)

Lemma str_find_eq p s :
  str_find p s =
  if String.prefix p s then Some 0
  else match s with
       | "" => None
       | String _ s' => S <$> str_find p s'
       end.
Proof. by destruct s. Qed.

Lemma occurrences_eq p s :
  occurrences p s =
  (if String.prefix p s then 1 else 0) +
  match s with
  | "" => 0
  | String _ s' => occurrences p s'
  end.
Proof. by destruct s. Qed.

Lemma split_loop_S n p s :
  split_loop (S n) p s =
  match str_find p s with
  | None => [s]
  | Some i => str_take i s :: split_loop n p (str_drop (i + String.length p) s)
  end.
Proof. reflexivity. Qed.

(** A hit of [find] cuts the string in three. *)
Lemma str_find_cut p s i :
  str_find p s = Some i →
  s = str_take i s +:+ p +:+ str_drop (i + String.length p) s
  ∧ String.length (str_take i s) = i.
Proof.
  revert i. induction s as [|c s IH]; intros i H; rewrite str_find_eq in H.
  - destruct p; [|discriminate]. by injection H as <-.
  - destruct (String.prefix p (String c s)) eqn:Hp.
    + injection H as <-. split; [|done].
      rewrite append_empty_l. by apply prefix_cut.
    + destruct (str_find p s) as [j|] eqn:Hj; [|discriminate].
      injection H as <-. destruct (IH j eq_refl) as [Hs Hl].
      simpl. rewrite append_cons. split; [by f_equal | by rewrite Hl].
Qed.

Lemma str_find_rest_shorter p s i :
  p ≠ "" → str_find p s = Some i →
  String.length (str_drop (i + String.length p) s) < String.length s.
Proof.
  intros Hp H. destruct (str_find_cut _ _ _ H) as [Hs Hl].
  rewrite Hs at 2. rewrite !length_append, Hl.
  destruct p; [done | simpl; lia].
Qed.

(** The fuel [str_split] gives the loop is enough: more changes nothing. *)
Lemma split_loop_fuel p n m s :
  p ≠ "" → String.length s ≤ n → String.length s ≤ m →
  split_loop n p s = split_loop m p s.
Proof.
  intros Hp. revert m s. induction n as [|n IH]; intros m s Hn Hm.
  - destruct s; [|simpl in Hn; lia].
    destruct m; [done|]. cbn [split_loop]. by rewrite str_find_eq, prefix_empty.
  - destruct m as [|m].
    + destruct s; [|simpl in Hm; lia].
      cbn [split_loop]. by rewrite str_find_eq, prefix_empty.
    + cbn [split_loop]. destruct (str_find p s) as [i|] eqn:Hi; [|done].
      pose proof (str_find_rest_shorter _ _ _ Hp Hi).
      f_equal. apply IH; lia.
Qed.

(** [find] misses exactly when the separator occurs nowhere. *)
Lemma str_find_none p s : str_find p s = None ↔ occurrences p s = 0.
Proof.
  induction s as [|c s IH]; rewrite str_find_eq, occurrences_eq.
  - destruct (String.prefix p ""); split; (done || lia).
  - destruct (String.prefix p (String c s)); simpl.
    + split; (done || lia).
    + rewrite <- IH. destruct (str_find p s); split; done.
Qed.
End StringFacts.

(** ** The release-notes delimiter *)

Section Delimiter.
Implicit Types (s a r : string) (c : ascii).

Lemma delimiter_eq :
  delimiter = String LF (String "#" (String "#" (String " " ""))).
Proof. reflexivity. Qed.

Lemma delimiter_length : String.length delimiter = 4.
Proof. reflexivity. Qed.

Lemma delimiter_not_empty : delimiter ≠ "".
Proof. discriminate. Qed.

(** The delimiter starts with a line feed and has no other: it cannot
    overlap itself. *)
Lemma delimiter_miss c s : c ≠ LF → String.prefix delimiter (String c s) = false.
Proof.
  intros Hc. rewrite delimiter_eq. cbn [String.prefix].
  destruct (ascii_dec LF c); [by destruct Hc | done].
Qed.

Lemma occurrences_empty : occurrences delimiter "" = 0.
Proof. reflexivity. Qed.

Lemma occurrences_after_hit r :
  occurrences delimiter (delimiter +:+ r) = S (occurrences delimiter r).
Proof.
  rewrite occurrences_eq, prefix_append.
  rewrite delimiter_eq at 1. rewrite !append_cons, append_empty_l.
  rewrite (occurrences_eq _ (String "#" _)), delimiter_miss by done.
  rewrite (occurrences_eq _ (String "#" _)), delimiter_miss by done.
  rewrite (occurrences_eq _ (String " " _)), delimiter_miss by done.
  reflexivity.
Qed.

(** Where [find] first hits the delimiter, nothing of it lies before, and
    the hit accounts for exactly one occurrence. *)
Lemma first_hit s i :
  str_find delimiter s = Some i →
  occurrences delimiter (str_take i s) = 0
  ∧ occurrences delimiter s
    = S (occurrences delimiter (str_drop (i + String.length delimiter) s)).
Proof.
  revert i. induction s as [|c s IH]; intros i H; rewrite str_find_eq in H.
  - discriminate.
  - destruct (String.prefix delimiter (String c s)) eqn:Hp.
    + injection H as <-. split; [done|].
      rewrite (prefix_cut _ _ Hp) at 1. apply occurrences_after_hit.
    + destruct (str_find delimiter s) as [j|] eqn:Hj; [|discriminate].
      injection H as <-. destruct (IH j eq_refl) as [Ha Hs].
      cbn [str_take str_drop Nat.add]. split.
      * rewrite occurrences_eq, Ha.
        destruct (String.prefix delimiter (String c (str_take j s))) eqn:Hq;
          [|done].
        apply (prefix_weaken _ _ (str_drop j s)) in Hq.
        rewrite append_cons, <- str_take_drop in Hq. congruence.
      * rewrite occurrences_eq, Hp. apply Hs.
Qed.

(** The first section boundary, when there is one. *)
Lemma first_boundary s :
  0 < occurrences delimiter s →
  ∃ a r, s = a +:+ delimiter +:+ r
         ∧ occurrences delimiter a = 0
         ∧ occurrences delimiter s = S (occurrences delimiter r)
         ∧ split_loop (S (String.length s)) delimiter s
           = a :: split_loop (S (String.length r)) delimiter r.
Proof.
  intros Hpos. destruct (str_find delimiter s) as [i|] eqn:Hi.
  - destruct (first_hit _ _ Hi) as [Ha Hs].
    destruct (str_find_cut _ _ _ Hi) as [Hcut _].
    pose proof (str_find_rest_shorter _ _ _ delimiter_not_empty Hi) as Hlt.
    exists (str_take i s), (str_drop (i + String.length delimiter) s).
    repeat split; try done.
    rewrite (split_loop_S (String.length s)), Hi. f_equal.
    apply split_loop_fuel; [apply delimiter_not_empty | lia..].
  - apply str_find_none in Hi. lia.
Qed.

Lemma no_boundary s :
  occurrences delimiter s = 0 →
  split_loop (S (String.length s)) delimiter s = [s].
Proof.
  intros H. apply str_find_none in H. by rewrite split_loop_S, H.
Qed.

(** [text.split("\n## ")] *)
Lemma split_delimiter s :
  str_split s (nl +:+ "## ")
  = Ok (split_loop (S (String.length s)) delimiter s).
Proof.
  change (nl +:+ "## ") with delimiter.
  unfold str_split. rewrite delimiter_eq at 1. f_equal.
  apply split_loop_fuel; [apply delimiter_not_empty | lia..].
Qed.

(** The sections of a document, by the number of boundaries in it. *)
Lemma sections_zero s :
  occurrences delimiter s = 0 → str_split s (nl +:+ "## ") = Ok [s].
Proof. intros H. by rewrite split_delimiter, no_boundary. Qed.

Lemma sections_one s :
  occurrences delimiter s = 1 →
  ∃ a r, s = a +:+ delimiter +:+ r
         ∧ occurrences delimiter a = 0 ∧ occurrences delimiter r = 0
         ∧ str_split s (nl +:+ "## ") = Ok [a; r].
Proof.
  intros H. destruct (first_boundary s) as (a & r & Hs & Ha & Hn & Hsplit); [lia|].
  exists a, r. rewrite split_delimiter, Hsplit.
  assert (occurrences delimiter r = 0) as Hr by lia.
  by rewrite (no_boundary r Hr).
Qed.

Lemma sections_two s :
  2 ≤ occurrences delimiter s →
  ∃ a b r rest,
    s = a +:+ delimiter +:+ b +:+ delimiter +:+ r
    ∧ occurrences delimiter a = 0 ∧ occurrences delimiter b = 0
    ∧ str_split s (nl +:+ "## ") = Ok (a :: b :: rest).
Proof.
  intros H. destruct (first_boundary s) as (a & r & Hs & Ha & Hn & Hsplit); [lia|].
  destruct (first_boundary r) as (b & r' & Hr & Hb & _ & Hsplit'); [lia|].
  exists a, b, r', (split_loop (S (String.length r')) delimiter r').
  rewrite split_delimiter, Hsplit, Hsplit'. by rewrite Hs, Hr at 1.
Qed.
End Delimiter.

Section Boundaries.
Implicit Types (s a b r x : string) (c : ascii).

(** A miss at a line feed stays a miss when a delimiter follows. *)
Lemma miss_before_delimiter c a x :
  String.prefix delimiter (String c a) = false →
  String.prefix delimiter (String c (a +:+ delimiter +:+ x)) = false.
Proof.
  destruct (decide (c = LF)) as [->|Hc]; [|by rewrite !delimiter_miss].
  rewrite delimiter_eq.
  destruct a as [|c1 [|c2 [|c3 a]]]; rewrite ?append_cons, ?append_empty_l;
    cbn [String.prefix];
    repeat match goal with
           | |- context [ascii_dec ?u ?v] => destruct (ascii_dec u v)
           end; try done.
  by rewrite !prefix_empty_l.
Qed.

(** With no delimiter inside [a], the first hit in [a ++ delimiter ++ x]
    is the one written out. *)
Lemma find_first a x :
  occurrences delimiter a = 0 →
  str_find delimiter (a +:+ delimiter +:+ x) = Some (String.length a).
Proof.
  induction a as [|c a IH]; intros H.
  - by rewrite append_empty_l, str_find_eq, prefix_append.
  - rewrite occurrences_eq in H.
    destruct (String.prefix delimiter (String c a)) eqn:Hp; [lia|].
    rewrite append_cons, str_find_eq, miss_before_delimiter by done.
    rewrite IH by lia. reflexivity.
Qed.

Lemma split_first a x :
  occurrences delimiter a = 0 →
  split_loop (S (String.length (a +:+ delimiter +:+ x))) delimiter
    (a +:+ delimiter +:+ x)
  = a :: split_loop (S (String.length x)) delimiter x.
Proof.
  intros H. rewrite split_loop_S, find_first by done.
  rewrite str_take_append, str_drop_append, str_drop_append_all. f_equal.
  apply split_loop_fuel; [apply delimiter_not_empty | |lia].
  rewrite !length_append. lia.
Qed.

(** The second element of the split is the text between the first two
    boundaries, however the document is cut there. *)
Lemma sections_between a b r :
  occurrences delimiter a = 0 → occurrences delimiter b = 0 →
  ∃ rest, str_split (a +:+ delimiter +:+ b +:+ delimiter +:+ r) (nl +:+ "## ")
          = Ok (a :: b :: rest).
Proof.
  intros Ha Hb. eexists.
  by rewrite split_delimiter, split_first, split_first.
Qed.

Lemma sections_after a r :
  occurrences delimiter a = 0 → occurrences delimiter r = 0 →
  str_split (a +:+ delimiter +:+ r) (nl +:+ "## ") = Ok [a; r].
Proof.
  intros Ha Hr. by rewrite split_delimiter, split_first, no_boundary.
Qed.
End Boundaries.

(** ** Running the monad *)

Ltac run :=
  unfold get_info, get_info_in, get_latest_release_notes, run_handler,
    async_def, client_get, classify_async, multi_query_tpuf, Secret_load_get,
    tool_getitem, try_except, bind, lift, emit, ret, raise, get_api_key,
    set_api_key, InvalidTopic, MalformedDocument; cbn beta iota.

(** ** The release notes and the dispatcher *)

Section Dispatcher.
Context (env : services).
Implicit Types (w : world) (tm : gmap string handler) (topic : string).

Lemma release_notes_run w resp :
  http env release_notes_url = Ok resp →
  get_latest_release_notes env w
  = (sections ← str_split (text resp) (nl +:+ "## "); list_getitem sections 1,
     after_notes w).
Proof.
  intros H. run. cbn. rewrite H.
  by destruct (str_split (text resp) (nl +:+ "## ")).
Qed.

Lemma get_info_in_missing tm topic w :
  tm !! topic = None → get_info_in tm topic w = (Raise (InvalidTopic topic), w).
Proof. intros H. run. by rewrite H. Qed.

Lemma get_info_in_found tm topic h w :
  tm !! topic = Some h →
  get_info_in tm topic w
  = match run_handler h w with
    | (Raise (KeyError _), w') => (Raise (InvalidTopic topic), w')
    | other => other
    end.
Proof.
  intros H. run. rewrite H.
  destruct (h w) as [[[v|c]|e] w1]; [done | | by destruct e].
  by destruct (c w1) as [[v|[]] w2].
Qed.

Lemma tool_map_lookup topic :
  tool_map env !! topic
  = if decide (topic = "latest_prefect_version")
    then Some (async_def (get_latest_release_notes env)) else None.
Proof.
  unfold tool_map. case_decide as H.
  - subst. apply lookup_singleton_eq.
  - by apply lookup_singleton_ne.
Qed.

(** The registered topic runs the release-notes fetch under the guard. *)
Lemma get_info_latest w :
  get_info env "latest_prefect_version" w
  = match get_latest_release_notes env w with
    | (Raise (KeyError _), w') =>
        (Raise (InvalidTopic "latest_prefect_version"), w')
    | other => other
    end.
Proof.
  unfold get_info. erewrite get_info_in_found by by rewrite tool_map_lookup.
  reflexivity.
Qed.
(** C2. A topic that is no key of the handler mapping makes [get_info] fail
    with the invalid-topic error, whose message ends in the offending
    value; the world is left as it was (no call went out), and the outcome
    is the same for every registry lacking the topic, whatever handlers it
    holds: none of them is run. *)
Theorem get_info_unknown_topic topic w :
  tool_map env !! topic = None →
  get_info env topic w = (Raise (ValueError ("Invalid topic: " +:+ topic)), w)
  ∧ topic ≠ "latest_prefect_version"
  ∧ (∀ tm, tm !! topic = None →
       get_info_in tm topic w = (Raise (InvalidTopic topic), w)).
Proof.
  intros H. split; [by apply get_info_in_missing|]. split.
  - intros ->. by rewrite tool_map_lookup in H.
  - intros tm Htm. by apply get_info_in_missing.
Qed.

(** C10. The guard of [get_info] encloses the call of the handler and its
    await: a [KeyError] raised while a registered handler runs comes out as
    the invalid-topic [ValueError] naming the (valid) topic. *)
Theorem get_info_masks_handler_keyerror tm topic h k w w' :
  tm !! topic = Some h →
  run_handler h w = (Raise (KeyError k), w') →
  get_info_in tm topic w
  = (Raise (ValueError ("Invalid topic: " +:+ topic)), w').
Proof.
  intros Hh Hrun. by rewrite (get_info_in_found _ _ _ _ Hh), Hrun.
Qed.

(** C1, as the code has it.  A release-notes body with no delimiter makes
    the fetch fail with [IndexError], alone and through [get_info]; a body
    with exactly one delimiter does not fail: the fetch returns all the
    text after that delimiter. *)
Theorem release_notes_few_boundaries w resp :
  http env release_notes_url = Ok resp →
  occurrences delimiter (text resp) ≤ 1 →
  (occurrences delimiter (text resp) = 0
   ∧ get_latest_release_notes env w = (Raise MalformedDocument, after_notes w)
   ∧ get_info env "latest_prefect_version" w
     = (Raise MalformedDocument, after_notes w))
  ∨ (occurrences delimiter (text resp) = 1
     ∧ ∃ a r, text resp = a +:+ delimiter +:+ r
              ∧ occurrences delimiter a = 0 ∧ occurrences delimiter r = 0
              ∧ get_latest_release_notes env w = (Ok r, after_notes w)
              ∧ get_info env "latest_prefect_version" w
                = (Ok r, after_notes w)).
Proof.
  intros Hget Hocc.
  rewrite get_info_latest, (release_notes_run _ _ Hget).
  destruct (occurrences delimiter (text resp)) as [|[|n]] eqn:Hn; [| |lia].
  - left. by rewrite (sections_zero _ Hn).
  - right. split; [done|].
    destruct (sections_one _ Hn) as (a & r & Hs & Ha & Hr & Hsplit).
    exists a, r. by rewrite Hsplit.
Qed.

(** C5. For a release-notes body with at least two delimiters,
    [get_info "latest_prefect_version"] returns the text between the first
    and the second of them: the body can be cut as
    [a ++ delimiter ++ b ++ delimiter ++ r] with no delimiter in [a] and
    none in [b], and for every such cut the answer is [b]. *)
Theorem release_notes_first_section w resp :
  http env release_notes_url = Ok resp →
  2 ≤ occurrences delimiter (text resp) →
  (∃ a b r, text resp = a +:+ delimiter +:+ b +:+ delimiter +:+ r
            ∧ occurrences delimiter a = 0 ∧ occurrences delimiter b = 0)
  ∧ (∀ a b r, text resp = a +:+ delimiter +:+ b +:+ delimiter +:+ r →
              occurrences delimiter a = 0 → occurrences delimiter b = 0 →
              get_info env "latest_prefect_version" w = (Ok b, after_notes w)).
Proof.
  intros Hget Hocc. split.
  - destruct (sections_two _ Hocc) as (a & b & r & rest & Hs & Ha & Hb & _).
    by exists a, b, r.
  - intros a b r Hs Ha Hb.
    rewrite get_info_latest, (release_notes_run _ _ Hget), Hs.
    destruct (sections_between a b r Ha Hb) as [rest ->]. reflexivity.
Qed.
End Dispatcher.

(** C2 at a sample: the topic "other" with the module's registry. *)
Lemma get_info_unknown_topic_witness :
  get_info (notes_services doc_two_sections) "other" w0
  = (Raise (ValueError "Invalid topic: other"), w0).
Proof.
  refine (proj1 (get_info_unknown_topic (notes_services doc_two_sections)
                   "other" w0 _)).
  vm_compute. reflexivity.
Defined.

(** C10 at a sample: the transport raises [KeyError] while the handler of
    the valid topic runs. *)
Lemma get_info_masks_handler_keyerror_witness :
  get_info keyerror_services "latest_prefect_version" w0
  = (Raise (ValueError "Invalid topic: latest_prefect_version"),
     after_notes w0).
Proof.
  apply (get_info_masks_handler_keyerror (tool_map keyerror_services)
           "latest_prefect_version"
           (async_def (get_latest_release_notes keyerror_services))
           (KStr "content-type") w0).
  - vm_compute. reflexivity.
  - reflexivity.
Defined.

(** C1 at a sample with one delimiter. *)
Lemma release_notes_few_boundaries_witness :
  (occurrences delimiter doc_one_section = 0
   ∧ get_latest_release_notes (notes_services doc_one_section) w0
     = (Raise MalformedDocument, after_notes w0)
   ∧ get_info (notes_services doc_one_section) "latest_prefect_version" w0
     = (Raise MalformedDocument, after_notes w0))
  ∨ (occurrences delimiter doc_one_section = 1
     ∧ ∃ a r, doc_one_section = a +:+ delimiter +:+ r
              ∧ occurrences delimiter a = 0 ∧ occurrences delimiter r = 0
              ∧ get_latest_release_notes (notes_services doc_one_section) w0
                = (Ok r, after_notes w0)
              ∧ get_info (notes_services doc_one_section)
                  "latest_prefect_version" w0
                = (Ok r, after_notes w0)).
Proof.
  apply (release_notes_few_boundaries (notes_services doc_one_section) w0
           (plain_page doc_one_section)).
  - reflexivity.
  - vm_compute. lia.
Defined.

(** C5 at a sample with two delimiters. *)
Lemma release_notes_first_section_witness :
  get_info (notes_services doc_two_sections) "latest_prefect_version" w0
  = (Ok ("3.1" +:+ nl +:+ "fixes"), after_notes w0).
Proof.
  refine (proj2 (release_notes_first_section (notes_services doc_two_sections)
                   w0 (plain_page doc_two_sections) _ _)
            "# Release notes" ("3.1" +:+ nl +:+ "fixes")
            ("3.0" +:+ nl +:+ "first release") _ _ _).
  - reflexivity.
  - vm_compute. lia.
  - reflexivity.
  - reflexivity.
  - reflexivity.
Defined.

(** C1 as stated fails: a body with exactly one delimiter is answered with
    the text after it, and with the empty text when nothing follows. *)
Lemma release_notes_one_boundary_returns :
  occurrences delimiter doc_one_section = 1
  ∧ get_info (notes_services doc_one_section) "latest_prefect_version" w0
    = (Ok ("3.0" +:+ nl +:+ "first release"), after_notes w0)
  ∧ get_latest_release_notes (notes_services doc_one_section) w0
    = (Ok ("3.0" +:+ nl +:+ "first release"), after_notes w0)
  ∧ occurrences delimiter doc_one_empty_section = 1
  ∧ get_info (notes_services doc_one_empty_section) "latest_prefect_version" w0
    = (Ok "", after_notes w0).
Proof. repeat split; vm_compute; reflexivity. Qed.

(** ** The documentation searches *)

Section Searches.
Context (env : services).
Implicit Types (w : world) (queries : list string) (ns : string).

Lemma search_2x_is_search : search_prefect_2x_docs env = search env "prefect-2".
Proof. reflexivity. Qed.

Lemma search_3x_is_search : search_prefect_3x_docs env = search env "prefect-3".
Proof. reflexivity. Qed.

(** One search, case by case on the slot and the store. *)
Lemma search_run ns queries w :
  search env ns queries w
  = if truthy (api_key w)
    then (backend env (api_key w) queries ns,
          World (api_key w) (trace w ++ [BackendQuery (api_key w) queries ns]))
    else match secret_store env "tpuf-api-key" with
         | Ok s =>
             (backend env (Some s) queries ns,
              World (Some s)
                (trace w ++ [SecretLoad "tpuf-api-key";
                             BackendQuery (Some s) queries ns]))
         | Raise e =>
             (Raise e, World (api_key w) (trace w ++ [SecretLoad "tpuf-api-key"]))
         end.
Proof.
  unfold search. run. destruct (truthy (api_key w)); cbn.
  - by destruct (backend env (api_key w) queries ns).
  - destruct (secret_store env "tpuf-api-key") as [s|e]; cbn; [|done].
    rewrite <- app_assoc. by destruct (backend env (Some s) queries ns).
Qed.

Lemma delegates_at_namespace ns queries w :
  credential_available env w = true →
  search env ns queries w
  = (backend env (credential_after env w) queries ns,
     World (credential_after env w)
       (trace w ++ credential_calls w
        ++ [BackendQuery (credential_after env w) queries ns])).
Proof.
  unfold credential_available, credential_after, credential_calls.
  rewrite search_run. destruct (truthy (api_key w)); [done|].
  by destruct (secret_store env "tpuf-api-key").
Qed.

(** C3. With the credential to be had, a search hands exactly the given
    queries and its own namespace literal to the backend, once, and returns
    what the backend answers (text or error) as it is; the two tools are the
    one parameterised search at "prefect-2" and at "prefect-3". *)
Theorem search_delegates queries w :
  queries ≠ [] →
  credential_available env w = true →
  search_prefect_2x_docs env queries w
  = (backend env (credential_after env w) queries "prefect-2",
     World (credential_after env w)
       (trace w ++ credential_calls w
        ++ [BackendQuery (credential_after env w) queries "prefect-2"]))
  ∧ search_prefect_3x_docs env queries w
    = (backend env (credential_after env w) queries "prefect-3",
       World (credential_after env w)
         (trace w ++ credential_calls w
          ++ [BackendQuery (credential_after env w) queries "prefect-3"]))
  ∧ search_prefect_2x_docs env = search env "prefect-2"
  ∧ search_prefect_3x_docs env = search env "prefect-3".
Proof.
  intros _ H. rewrite search_2x_is_search, search_3x_is_search.
  by rewrite !delegates_at_namespace.
Qed.

Lemma secret_fetches_app t t' :
  secret_fetches (t ++ t') = secret_fetches t + secret_fetches t'.
Proof. unfold secret_fetches. by rewrite List.filter_app, length_app. Qed.

Local Ltac count_fetches :=
  do 2 eexists; split; [reflexivity|]; split;
  [ cbn [trace orb]; rewrite !secret_fetches_app; cbn; lia
  | cbn [api_key]; unfold credential_after;
    repeat match goal with H : _ = _ |- _ => rewrite H end; reflexivity ].

(** Two searches in a row answer alike; how often they went to the store is
    decided by the slot before the first and by what the store delivers. *)
Lemma twice_search_counts ns queries w :
  ∃ r w2,
    twice (search env ns queries) w = (r, r, w2)
    ∧ secret_fetches (trace w2)
      = secret_fetches (trace w)
        + (if credential_sticks env w
           then length (credential_calls w) else 2)
    ∧ api_key w2 = credential_after env w.
Proof.
  unfold twice, credential_sticks, credential_calls. rewrite search_run.
  destruct (truthy (api_key w)) eqn:Hk.
  - rewrite search_run. cbn [api_key]. rewrite Hk. count_fetches.
  - destruct (secret_store env "tpuf-api-key") as [s|e] eqn:Hs.
    + rewrite search_run. cbn [api_key trace orb].
      destruct (truthy (Some s)) eqn:Hsk; rewrite ?Hs; count_fetches.
    + rewrite search_run. cbn [api_key trace orb]. rewrite Hk, Hs.
      count_fetches.
Qed.

Lemma search_counted_run ns queries w n :
  search_counted env ns queries (w, n)
  = ((search env ns queries w).1,
     ((search env ns queries w).2,
      n + if truthy (api_key w) then 0
          else if is_ok (secret_store env "tpuf-api-key") then 1 else 0)).
Proof.
  rewrite search_run. unfold search_counted, bind_c, lift_c, ret_c,
    assign_api_key. run. cbn [fst snd].
  destruct (truthy (api_key w)); cbn.
  - rewrite Nat.add_0_r. by destruct (backend env (api_key w) queries ns).
  - destruct (secret_store env "tpuf-api-key") as [s|e]; cbn;
      [|by rewrite Nat.add_0_r].
    rewrite <- app_assoc, Nat.add_1_r.
    by destruct (backend env (Some s) queries ns).
Qed.

Lemma search_slot ns queries w :
  api_key (search env ns queries w).2 = credential_after env w.
Proof.
  rewrite search_run. unfold credential_after.
  destruct (truthy (api_key w)); [done|].
  by destruct (secret_store env "tpuf-api-key").
Qed.

(** Two searches in a row, with the assignments counted. *)
Lemma twice_search_writes ns queries w n :
  ∃ r w2,
    twice (search env ns queries) w = (r, r, w2)
    ∧ twice_counted (search_counted env ns queries) (w, n)
      = (r, r, (w2, n + writes_of_two env w))
    ∧ api_key w2 = credential_after env w
    ∧ secret_fetches (trace w2)
      = secret_fetches (trace w) + fetches_of_two env w.
Proof.
  destruct (twice_search_counts ns queries w) as (r & w2 & Ht & Hn & Hk).
  exists r, w2. split; [done|]. split; [|done].
  unfold twice_counted. rewrite search_counted_run.
  unfold twice in Ht.
  destruct (search env ns queries w) as [r1 w1] eqn:H1. cbn [fst snd].
  rewrite search_counted_run.
  destruct (search env ns queries w1) as [r2 w2'] eqn:H2. cbn [fst snd].
  injection Ht as -> -> ->. f_equal. f_equal.
  assert (api_key w1 = credential_after env w) as Hw1.
  { change w1 with (r, w1).2. rewrite <- H1. apply search_slot. }
  rewrite Hw1. unfold writes_of_two, credential_after.
  destruct (truthy (api_key w)) eqn:Hkw; [by rewrite Hkw|].
  destruct (secret_store env "tpuf-api-key") as [s|e]; cbn [is_ok].
  - destruct (truthy (Some s)); lia.
  - rewrite Hkw. lia.
Qed.

(** C7, as the code has it.  Two searches in a row with the same queries
    answer alike, whatever the slot and the store hold.  When the slot
    holds a non-empty credential, or the store delivers a non-empty one,
    the two together visit the store once at most and assign the slot once
    at most; when the slot is empty and the store delivers the empty
    credential, each of the two visits the store and assigns the slot. *)
Theorem search_twice queries w n :
  (∃ r w2, twice (search_prefect_2x_docs env queries) w = (r, r, w2)
           ∧ twice_counted (search_counted env "prefect-2" queries) (w, n)
             = (r, r, (w2, n + writes_of_two env w))
           ∧ api_key w2 = credential_after env w
           ∧ secret_fetches (trace w2)
             = secret_fetches (trace w) + fetches_of_two env w)
  ∧ (∃ r w2, twice (search_prefect_3x_docs env queries) w = (r, r, w2)
             ∧ twice_counted (search_counted env "prefect-3" queries) (w, n)
               = (r, r, (w2, n + writes_of_two env w))
             ∧ api_key w2 = credential_after env w
             ∧ secret_fetches (trace w2)
               = secret_fetches (trace w) + fetches_of_two env w)
  ∧ (credential_sticks env w = true →
     fetches_of_two env w ≤ 1 ∧ writes_of_two env w ≤ 1)
  ∧ (truthy (api_key w) = false → secret_store env "tpuf-api-key" = Ok "" →
     fetches_of_two env w = 2 ∧ writes_of_two env w = 2).
Proof.
  rewrite search_2x_is_search, search_3x_is_search.
  split; [apply twice_search_writes|]. split; [apply twice_search_writes|].
  unfold fetches_of_two, writes_of_two, credential_sticks, credential_calls.
  split.
  - destruct (truthy (api_key w)); cbn; [lia|].
    destruct (secret_store env "tpuf-api-key") as [s|]; [|done].
    intros ->. cbn. lia.
  - by intros -> ->.
Qed.
End Searches.

(** C3 at a sample: two queries, nothing cached, a store that delivers. *)
Lemma search_delegates_witness :
  search_prefect_2x_docs good_secret_services ["retrieve task run id"; "run metadata"] w0
  = (Ok "prefect-2:retrieve task run id,run metadata",
     World (Some "tpuf-key")
       [SecretLoad "tpuf-api-key";
        BackendQuery (Some "tpuf-key")
          ["retrieve task run id"; "run metadata"] "prefect-2"]).
Proof.
  refine (proj1 (search_delegates good_secret_services
                   ["retrieve task run id"; "run metadata"] w0 _ _)).
  - discriminate.
  - reflexivity.
Defined.

(** C7 at a sample: a store with a non-empty credential, nothing cached. *)
Lemma search_twice_witness :
  ∃ r w2,
    twice (search_prefect_3x_docs good_secret_services ["a"; "b"]) w0
    = (r, r, w2)
    ∧ twice_counted (search_counted good_secret_services "prefect-3" ["a"; "b"])
        (w0, 0)
      = (r, r, (w2, 1))
    ∧ api_key w2 = Some "tpuf-key"
    ∧ secret_fetches (trace w2) = 1.
Proof.
  exact (proj1 (proj2 (search_twice good_secret_services ["a"; "b"] w0 0))).
Defined.

(** C7 as stated fails: with an empty credential in the store, each of the
    two searches fetches it. *)
Lemma empty_credential_fetched_twice :
  twice (search_prefect_2x_docs empty_secret_services ["a"; "b"]) w0
  = (Ok "prefect-2:a,b", Ok "prefect-2:a,b",
     World (Some "")
       [SecretLoad "tpuf-api-key"; BackendQuery (Some "") ["a"; "b"] "prefect-2";
        SecretLoad "tpuf-api-key"; BackendQuery (Some "") ["a"; "b"] "prefect-2"])
  ∧ secret_fetches
      (trace (twice (search_prefect_2x_docs empty_secret_services ["a"; "b"]) w0).2)
    = 2.
Proof. split; vm_compute; reflexivity. Qed.

(** ** Dicts *)

Section Dicts.
Implicit Types (d : pydict) (k : pykey) (v : json).

Lemma key_eqb_true a b : key_eqb a b = true ↔ key_norm a = key_norm b.
Proof. apply bool_decide_eq_true. Qed.

Lemma key_eqb_refl k : key_eqb k k = true.
Proof. by apply key_eqb_true. Qed.

(** Keys that are equal look up alike. *)
Lemma key_eqb_congr a b k : key_eqb a b = true → key_eqb a k = key_eqb b k.
Proof. intros H%key_eqb_true. unfold key_eqb. by rewrite H. Qed.

Lemma dict_lookup_setitem d k v k2 :
  dict_lookup k2 (dict_setitem d k v)
  = if key_eqb k k2 then Some v else dict_lookup k2 d.
Proof.
  induction d as [|[k' v'] d IH]; [done|]. cbn [dict_setitem].
  destruct (key_eqb k' k) eqn:E; cbn [dict_lookup].
  - rewrite (key_eqb_congr _ _ k2 E). by destruct (key_eqb k k2).
  - rewrite IH. destruct (key_eqb k' k2) eqn:E2; [|done].
    destruct (key_eqb k k2) eqn:E3; [|done].
    apply key_eqb_true in E2, E3.
    assert (key_eqb k' k = true) by (apply key_eqb_true; congruence).
    congruence.
Qed.

(** A value found in a dict sits there under an equal key. *)
Lemma dict_lookup_elem k d v :
  dict_lookup k d = Some v → ∃ k', (k', v) ∈ d ∧ key_eqb k' k = true.
Proof.
  induction d as [|[k' v'] d IH]; [done|]. cbn [dict_lookup].
  destruct (key_eqb k' k) eqn:E.
  - intros [= ->]. exists k'. split; [left | done].
  - intros (k1 & Hin & Hk)%IH. exists k1. split; [by right | done].
Qed.

Lemma dict_lookup_empty_keys d k : dict_keys d = [] → dict_lookup k d = None.
Proof. by destruct d. Qed.
End Dicts.

(** ** The manifest *)

Section Manifest.
Implicit Types (d : pydict) (k : pykey) (item category manifest : json).

Lemma result_bind_ok {A B} (a : A) (k : A → result B) : Ok a ≫= k = k a.
Proof. reflexivity. Qed.

Lemma last_binding_app k (l1 l2 : list (json * json)) :
  last_binding k (l1 ++ l2)
  = match last_binding k l2 with
    | Some p => Some p
    | None => last_binding k l1
    end.
Proof.
  induction l1 as [|[dsc p] l1 IH]; cbn [app last_binding].
  - by destruct (last_binding k l2).
  - rewrite IH. by destruct (last_binding k l2).
Qed.

Lemma py_get_obj o key default :
  py_get (JObj o) key default = Ok (field key default (JObj o)).
Proof. reflexivity. Qed.

Lemma add_item_shape d item :
  item_shape item = true →
  ∃ key, hashable (field "description" JNull item) = Ok key
         ∧ add_item d item
           = Ok (dict_setitem d key (field "relative_path" JNull item)).
Proof.
  unfold item_shape. intros [Ho Hh]%andb_true_iff.
  destruct item as [| | | | |o]; try discriminate.
  destruct (hashable (field "description" JNull (JObj o))) as [key|] eqn:Hk;
    [|discriminate].
  exists key. split; [done|]. unfold add_item.
  by rewrite !py_get_obj, !result_bind_ok, Hk.
Qed.

(** The inner loop: every example is stored, later ones over earlier ones
    and over what the dict held. *)
Lemma add_items_shape (l : list json) d :
  forallb item_shape l = true →
  ∃ d', foldl_result add_item d l = Ok d'
        ∧ ∀ k, dict_lookup k d'
               = match last_binding k (l ≫= λ item, [example_pair item]) with
                 | Some p => Some p
                 | None => dict_lookup k d
                 end.
Proof.
  revert d. induction l as [|item l IH]; intros d H.
  - by exists d.
  - cbn [forallb] in H. apply andb_true_iff in H as [Hi Hl].
    destruct (add_item_shape d item Hi) as (key & Hk & Hadd).
    destruct (IH (dict_setitem d key (field "relative_path" JNull item)) Hl)
      as (d' & Hfold & Hlook).
    exists d'. cbn [foldl_result]. rewrite Hadd. split; [exact Hfold|].
    intros k. rewrite Hlook, bind_cons.
    cbn [app last_binding example_pair].
    destruct (last_binding k _); [done|].
    rewrite Hk, dict_lookup_setitem. by destruct (key_eqb key k).
Qed.

Lemma add_category_shape d category :
  category_shape category = true →
  ∃ d', add_category d category = Ok d'
        ∧ ∀ k, dict_lookup k d'
               = match last_binding k (category_examples category) with
                 | Some p => Some p
                 | None => dict_lookup k d
                 end.
Proof.
  unfold category_shape. intros [Ho [Ha Hl]%andb_true_iff]%andb_true_iff.
  destruct category as [| | | | |o]; try discriminate.
  unfold add_category, category_examples. rewrite py_get_obj, result_bind_ok.
  destruct (field "examples" (JArr []) (JObj o)) as [| | | |l|] eqn:He;
    try discriminate.
  cbn [elements py_iter] in Hl |- *. rewrite result_bind_ok.
  by apply add_items_shape.
Qed.

Lemma add_categories_shape (l : list json) d :
  forallb category_shape l = true →
  ∃ d', foldl_result add_category d l = Ok d'
        ∧ ∀ k, dict_lookup k d'
               = match last_binding k (l ≫= category_examples) with
                 | Some p => Some p
                 | None => dict_lookup k d
                 end.
Proof.
  revert d. induction l as [|category l IH]; intros d H.
  - by exists d.
  - cbn [forallb] in H. apply andb_true_iff in H as [Hc Hl].
    destruct (add_category_shape d category Hc) as (d1 & Hadd & Hlook1).
    destruct (IH d1 Hl) as (d' & Hfold & Hlook).
    exists d'. cbn [foldl_result]. rewrite Hadd. split; [exact Hfold|].
    intros k. rewrite Hlook, bind_cons, last_binding_app.
    destruct (last_binding k _); [done|]. apply Hlook1.
Qed.

(** Absent keys: no "categories", no rounds; no "examples", nothing added. *)
Lemma example_items_without_categories o :
  obj_lookup "categories" o = None → example_items (JObj o) = Ok [].
Proof.
  intros H. unfold example_items. rewrite py_get_obj. cbn [field]. by rewrite H.
Qed.

Lemma add_category_without_examples d o :
  obj_lookup "examples" o = None → add_category d (JObj o) = Ok d.
Proof.
  intros H. unfold add_category. rewrite py_get_obj. cbn [field]. by rewrite H.
Qed.

(** The comprehension against the accessors it is built from. *)
Lemma flatten_by_accessors :
  (∀ manifest, manifest_shape manifest = true →
     ∃ items, example_items manifest = Ok items
              ∧ ∀ k, dict_lookup k items
                     = last_binding k (spec_examples manifest))
  ∧ (∀ o, obj_lookup "categories" o = None → example_items (JObj o) = Ok [])
  ∧ (∀ d o, obj_lookup "examples" o = None → add_category d (JObj o) = Ok d).
Proof.
  split; [|split; [apply example_items_without_categories
                  | apply add_category_without_examples]].
  intros manifest. unfold manifest_shape.
  intros [Ho [Ha Hl]%andb_true_iff]%andb_true_iff.
  destruct manifest as [| | | | |o]; try discriminate.
  unfold example_items, spec_examples. rewrite py_get_obj, result_bind_ok.
  destruct (field "categories" (JArr []) (JObj o)) as [| | | |l|] eqn:Hc;
    try discriminate.
  cbn [elements py_iter] in Hl |- *. rewrite result_bind_ok.
  destruct (add_categories_shape l [] Hl) as (items & Hfold & Hlook).
  exists items. split; [exact Hfold|].
  intros k. rewrite Hlook. cbn [dict_lookup].
  by destruct (last_binding k _).
Qed.
End Manifest.

(** ** The code-example retriever *)

Section Retriever.
Context (env : services).
Implicit Types (w : world) (related_to : string) (items : pydict).

(** The run, step by step: every way out of [get_prefect_code_example]. *)
Lemma code_example_run related_to w :
  get_prefect_code_example env related_to w
  = match http env manifest_url with
    | Raise e => (Raise e, after_manifest w)
    | Ok response =>
    match body_json response with
    | Raise e => (Raise e, after_manifest w)
    | Ok manifest =>
    match example_items manifest with
    | Raise e => (Raise e, after_manifest w)
    | Ok items =>
    match classifier env related_to (dict_keys items) with
    | Raise e => (Raise e, after_classify related_to items w)
    | Ok key =>
    match dict_lookup key items with
    | None => (Raise (KeyError key), after_classify related_to items w)
    | Some path =>
    let best_link := base_url +:+ "/" +:+ py_str env path in
    match http env best_link with
    | Raise e => (Raise e, after_fetch related_to items best_link w)
    | Ok fetched =>
        (Ok (code_example_text best_link (text fetched)),
         after_fetch related_to items best_link w)
    end end end end end end.
Proof.
  unfold get_prefect_code_example, after_manifest, after_classify, after_fetch.
  run. change (base_url +:+ "/views/README.json") with manifest_url.
  destruct (http env manifest_url) as [response|]; [|done].
  destruct (body_json response) as [manifest|]; [|done].
  destruct (example_items manifest) as [items|]; [|done].
  cbn [api_key trace]. rewrite <- !app_assoc. cbn [app].
  destruct (classifier env related_to (dict_keys items)) as [key|]; [|done].
  unfold dict_getitem. destruct (dict_lookup key items) as [path|]; [|done].
  cbn [api_key trace]. rewrite <- !app_assoc. cbn [app].
  by destruct (http env (base_url +:+ "/" +:+ py_str env path)).
Qed.

(** A successful run: where the answer comes from. *)
Lemma code_example_success related_to w out w' :
  get_prefect_code_example env related_to w = (Ok out, w') →
  ∃ response manifest items key path fetched,
    http env manifest_url = Ok response
    ∧ body_json response = Ok manifest
    ∧ example_items manifest = Ok items
    ∧ classifier env related_to (dict_keys items) = Ok key
    ∧ dict_lookup key items = Some path
    ∧ http env (base_url +:+ "/" +:+ py_str env path) = Ok fetched
    ∧ out = code_example_text (base_url +:+ "/" +:+ py_str env path)
              (text fetched)
    ∧ w' = after_fetch related_to items
             (base_url +:+ "/" +:+ py_str env path) w.
Proof.
  rewrite code_example_run.
  destruct (http env manifest_url) as [response|] eqn:H1; [|done].
  destruct (body_json response) as [manifest|] eqn:H2; [|done].
  destruct (example_items manifest) as [items|] eqn:H3; [|done].
  destruct (classifier env related_to (dict_keys items)) as [key|] eqn:H4;
    [|done].
  destruct (dict_lookup key items) as [path|] eqn:H5; [|done].
  cbn zeta.
  destruct (http env (base_url +:+ "/" +:+ py_str env path)) as [fetched|]
    eqn:H6; [|done].
  intros [= <- <-]. by exists response, manifest, items, key, path, fetched.
Qed.

(** C6. When the classifier answers with a label that is no key of the
    flattened mapping, the run ends in the [KeyError] of the dict access,
    carrying the label: an error of its own kind, raised before any link is
    built, with the manifest as the only document fetched. *)
Theorem classification_mismatch related_to w response manifest items key :
  http env manifest_url = Ok response →
  body_json response = Ok manifest →
  example_items manifest = Ok items →
  classifier env related_to (dict_keys items) = Ok key →
  dict_lookup key items = None →
  get_prefect_code_example env related_to w
  = (Raise (ClassificationMismatch key), after_classify related_to items w)
  ∧ List.filter is_http_get (trace (after_classify related_to items w))
    = List.filter is_http_get (trace w) ++ [HttpGet manifest_url]
  ∧ ClassificationMismatch key ≠ MalformedDocument
  ∧ (∀ topic, ClassificationMismatch key ≠ InvalidTopic topic)
  ∧ (∀ what, ClassificationMismatch key ≠ UpstreamError what).
Proof.
  intros H1 H2 H3 H4 H5. rewrite code_example_run, H1, H2, H3, H4, H5.
  split; [done|]. split; [|done].
  unfold after_classify. cbn [trace]. by rewrite List.filter_app.
Qed.

(** C8, as the code has it.  Every link the retriever returns is the base
    URL joined with [str()] of a value of the flattened mapping: with the
    value itself when it is a string, with "None" when the example had no
    path; and when the mapping is empty the classifier is offered no label
    and the run fails, whatever the classifier does. *)
Theorem code_example_link_from_manifest related_to w :
  (∀ out w', get_prefect_code_example env related_to w = (Ok out, w') →
     ∃ response manifest items key value content,
       http env manifest_url = Ok response
       ∧ body_json response = Ok manifest
       ∧ example_items manifest = Ok items
       ∧ classifier env related_to (dict_keys items) = Ok key
       ∧ dict_lookup key items = Some value
       ∧ (∃ k, (k, value) ∈ items)
       ∧ out = code_example_text (base_url +:+ "/" +:+ py_str env value) content
       ∧ (∀ path, value = JStr path →
            out = code_example_text (base_url +:+ "/" +:+ path) content
            ∧ path_is_value (base_url +:+ "/" +:+ path) items)
       ∧ (value = JNull →
            out = code_example_text (base_url +:+ "/None") content)
       ∧ w' = after_fetch related_to items
                (base_url +:+ "/" +:+ py_str env value) w)
  ∧ (∀ response manifest,
       http env manifest_url = Ok response →
       body_json response = Ok manifest →
       example_items manifest = Ok [] →
       ∃ e, get_prefect_code_example env related_to w
            = (Raise e, after_classify related_to [] w)).
Proof.
  split.
  - intros out w' Hrun.
    destruct (code_example_success _ _ _ _ Hrun)
      as (response & manifest & items & key & value & fetched
          & H1 & H2 & H3 & H4 & H5 & H6 & Hout & Hw).
    destruct (dict_lookup_elem _ _ _ H5) as (k & Hin & _).
    exists response, manifest, items, key, value, (text fetched).
    do 5 (split; [done|]). split; [by exists k|]. split; [done|].
    split; [|split; [|done]].
    + intros path ->. split; [done|]. by exists k, path.
    + by intros ->.
  - intros response manifest H1 H2 H3. rewrite code_example_run, H1, H2, H3.
    destruct (classifier env related_to (dict_keys [])) as [key|e].
    + by exists (KeyError key).
    + by exists e.
Qed.
End Retriever.

(** C4, as the code has it.  A successful run returns the line "LINK:",
    the resolved URL, an empty line, a line made of one space and
    "EXAMPLE:", and then the content fetched from that URL; so does the
    scenario with the one-example manifest and the classifier that always
    answers "retry a flow". *)
Theorem code_example_format :
  (∀ env related_to w out w',
     get_prefect_code_example env related_to w = (Ok out, w') →
     ∃ path fetched,
       http env (base_url +:+ "/" +:+ py_str env path) = Ok fetched
       ∧ out = "LINK:" +:+ nl +:+ (base_url +:+ "/" +:+ py_str env path)
               +:+ nl +:+ nl +:+ " EXAMPLE:" +:+ nl +:+ text fetched)
  ∧ (∀ content,
       get_prefect_code_example (scenario_services content) scenario_question w0
       = (Ok ("LINK:" +:+ nl +:+ (base_url +:+ "/examples/retry.py")
              +:+ nl +:+ nl +:+ " EXAMPLE:" +:+ nl +:+ content),
          after_fetch scenario_question [(KStr "retry a flow",
                                          JStr "examples/retry.py")]
            scenario_link w0)).
Proof.
  split.
  - intros env related_to w out w' Hrun.
    destruct (code_example_success _ _ _ _ _ Hrun)
      as (response & manifest & items & key & path & fetched
          & _ & _ & _ & _ & _ & H6 & Hout & _).
    exists path, fetched. split; [done|]. rewrite Hout.
    unfold code_example_text. by rewrite !append_assoc.
  - intros content. vm_compute. reflexivity.
Qed.

(** C4 at a sample: the scenario with a one-line example file. *)
Lemma code_example_format_witness :
  ∃ path fetched,
    http (scenario_services "print(1)")
      (base_url +:+ "/" +:+ py_str (scenario_services "print(1)") path)
    = Ok fetched
    ∧ code_example_text scenario_link "print(1)"
      = "LINK:" +:+ nl
        +:+ (base_url +:+ "/" +:+ py_str (scenario_services "print(1)") path)
        +:+ nl +:+ nl +:+ " EXAMPLE:" +:+ nl +:+ text fetched.
Proof.
  apply (proj1 code_example_format (scenario_services "print(1)")
           scenario_question w0 _
           (after_fetch scenario_question
              [(KStr "retry a flow", JStr "examples/retry.py")]
              scenario_link w0)).
  vm_compute. reflexivity.
Defined.

(** C4 as stated fails: in the scenario the answer is not the text with a
    bare "EXAMPLE:" line; the line starts with a space. *)
Lemma scenario_text_differs :
  (get_prefect_code_example (scenario_services "print(1)") scenario_question w0).1
  = Ok (code_example_text scenario_link "print(1)")
  ∧ code_example_text scenario_link "print(1)"
    ≠ spec_code_example_text scenario_link "print(1)".
Proof.
  split; [vm_compute; reflexivity|].
  intros H. apply (f_equal (String.length)) in H. vm_compute in H. lia.
Qed.

(** C6 at a sample: the classifier answers "deploy a flow", the manifest
    only has "retry a flow". *)
Lemma classification_mismatch_witness :
  get_prefect_code_example stray_services scenario_question w0
  = (Raise (KeyError (KStr "deploy a flow")),
     World None [HttpGet manifest_url;
                 Classify scenario_question [KStr "retry a flow"]]).
Proof.
  refine (proj1 (classification_mismatch stray_services scenario_question w0
                   (Response scenario_manifest_text (Ok scenario_manifest))
                   scenario_manifest
                   [(KStr "retry a flow", JStr "examples/retry.py")]
                   (KStr "deploy a flow") _ _ _ _ _));
    vm_compute; reflexivity.
Defined.

(** C8 at samples: the scenario, whose link carries a path of the mapping,
    and a manifest without categories, with a classifier that still names
    a label. *)
Lemma code_example_link_from_manifest_witness :
  (∃ response manifest items key value content,
     http (scenario_services "print(1)") manifest_url = Ok response
     ∧ body_json response = Ok manifest
     ∧ example_items manifest = Ok items
     ∧ classifier (scenario_services "print(1)") scenario_question
         (dict_keys items) = Ok key
     ∧ dict_lookup key items = Some value
     ∧ (∃ k, (k, value) ∈ items)
     ∧ code_example_text scenario_link "print(1)"
       = code_example_text
           (base_url +:+ "/" +:+ py_str (scenario_services "print(1)") value)
           content
     ∧ (∀ path, value = JStr path →
          code_example_text scenario_link "print(1)"
          = code_example_text (base_url +:+ "/" +:+ path) content
          ∧ path_is_value (base_url +:+ "/" +:+ path) items)
     ∧ (value = JNull →
          code_example_text scenario_link "print(1)"
          = code_example_text (base_url +:+ "/None") content)
     ∧ after_fetch scenario_question
         [(KStr "retry a flow", JStr "examples/retry.py")] scenario_link w0
       = after_fetch scenario_question items
           (base_url +:+ "/" +:+ py_str (scenario_services "print(1)") value)
           w0)
  ∧ (∃ e, get_prefect_code_example empty_manifest_services scenario_question w0
          = (Raise e, after_classify scenario_question [] w0)).
Proof.
  split.
  - apply (proj1 (code_example_link_from_manifest (scenario_services "print(1)")
                    scenario_question w0)).
    reflexivity.
  - refine (proj2 (code_example_link_from_manifest empty_manifest_services
                     scenario_question w0)
              (Response "{}" (Ok (JObj []))) (JObj []) _ _ _);
      vm_compute; reflexivity.
Defined.

(** C8 as stated fails: for a manifest whose example has no
    "relative_path" the retriever returns the link [base_url/None], and no
    value of the flattened mapping is that path. *)
Lemma link_path_not_a_value :
  get_prefect_code_example none_path_services scenario_question w0
  = (Ok (code_example_text (base_url +:+ "/None") "404: Not Found"),
     after_fetch scenario_question [(KStr "retry a flow", JNull)]
       (base_url +:+ "/None") w0)
  ∧ example_items manifest_without_path = Ok [(KStr "retry a flow", JNull)]
  ∧ ¬ path_is_value (base_url +:+ "/None") [(KStr "retry a flow", JNull)].
Proof.
  split; [reflexivity|]. split; [reflexivity|].
  intros (k & path & Hin & _). apply list_elem_of_singleton in Hin.
  discriminate.
Qed.

(** * Further properties of the module *)

(** ** Splitting, for any separator *)

Section Splitting.
Implicit Types (s p a r : string) (c : ascii).

Lemma split_loop_not_nil n p s : split_loop n p s ≠ [].
Proof.
  destruct n; [done|]. rewrite split_loop_S. by destruct (str_find p s).
Qed.

Lemma concat_cons p a (l : list string) :
  l ≠ [] → String.concat p (a :: l) = a +:+ p +:+ String.concat p l.
Proof. by destruct l. Qed.

Lemma split_loop_join n p s : String.concat p (split_loop n p s) = s.
Proof.
  revert s. induction n as [|n IH]; intros s; [done|].
  rewrite split_loop_S. destruct (str_find p s) as [i|] eqn:Hi; [|done].
  rewrite concat_cons by apply split_loop_not_nil.
  rewrite IH. symmetry. by apply str_find_cut.
Qed.

(** X1. Joining what [split] returns with the separator gives the string back
    ([sep.join(s.split(sep)) == s]). *)
Theorem split_join s p parts :
  str_split s p = Ok parts → String.concat p parts = s.
Proof.
  unfold str_split. destruct p; [done|]. intros [= <-]. apply split_loop_join.
Qed.

(** Before the first hit there is no occurrence of the separator. *)
Lemma none_before_hit p s i :
  p ≠ "" → str_find p s = Some i → occurrences p (str_take i s) = 0.
Proof.
  intros Hp. revert i.
  induction s as [|c s IH]; intros i H; rewrite str_find_eq in H.
  - by rewrite prefix_empty in H.
  - destruct (String.prefix p (String c s)) eqn:Hq.
    + injection H as <-. cbn [str_take]. rewrite occurrences_eq.
      by rewrite prefix_empty.
    + destruct (str_find p s) as [j|] eqn:Hj; [|discriminate].
      injection H as <-. cbn [str_take]. rewrite occurrences_eq, (IH j eq_refl).
      destruct (String.prefix p (String c (str_take j s))) eqn:Hr; [|done].
      apply (prefix_weaken _ _ (str_drop j s)) in Hr.
      rewrite append_cons, <- str_take_drop in Hr. congruence.
Qed.

Lemma split_loop_pieces n p s :
  p ≠ "" → String.length s ≤ n →
  Forall (λ piece, occurrences p piece = 0) (split_loop n p s).
Proof.
  intros Hp. revert s. induction n as [|n IH]; intros s Hn.
  - destruct s; [|simpl in Hn; lia]. constructor; [|done].
    by rewrite occurrences_eq, prefix_empty.
  - rewrite split_loop_S. destruct (str_find p s) as [i|] eqn:Hi.
    + constructor; [by apply none_before_hit|].
      apply IH. pose proof (str_find_rest_shorter _ _ _ Hp Hi). lia.
    + constructor; [|done]. by apply str_find_none.
Qed.

(** X2. No piece that [split] returns contains the separator. *)
Theorem split_pieces_free s p parts :
  str_split s p = Ok parts →
  Forall (λ piece, occurrences p piece = 0) parts.
Proof.
  unfold str_split. destruct p as [|c q] eqn:Hp; [done|]. intros [= <-].
  by apply split_loop_pieces.
Qed.

Lemma count_sections_bounded n s :
  String.length s ≤ n →
  length (split_loop (S (String.length s)) delimiter s)
  = S (occurrences delimiter s).
Proof.
  revert s. induction n as [|n IH]; intros s Hn.
  - destruct s; [done | simpl in Hn; lia].
  - destruct (occurrences delimiter s) as [|k] eqn:Hk.
    + by rewrite no_boundary.
    + destruct (first_boundary s) as (a & r & Hs & Ha & Hocc & Hsplit); [lia|].
      rewrite Hsplit. cbn [length]. rewrite IH; [lia|].
      rewrite Hs, !length_append, delimiter_length in Hn. lia.
Qed.

(** X3. The release notes split into one piece more than they hold
    delimiters. *)
Theorem sections_count s parts :
  str_split s (nl +:+ "## ") = Ok parts →
  length parts = S (occurrences delimiter s).
Proof.
  rewrite split_delimiter. intros [= <-]. by eapply count_sections_bounded.
Qed.
End Splitting.

Lemma split_join_witness :
  String.concat delimiter
    ["# Release notes"; "3.1" +:+ nl +:+ "fixes"; "3.0" +:+ nl +:+ "first release"]
  = doc_two_sections.
Proof.
  apply (split_join doc_two_sections delimiter). reflexivity.
Defined.

Lemma split_pieces_free_witness :
  Forall (λ piece, occurrences "XX" piece = 0) ["a"; "Xb"; ""].
Proof.
  apply (split_pieces_free "aXXXbXX" "XX"). reflexivity.
Defined.

Lemma sections_count_witness :
  length ["# Release notes"; "3.1" +:+ nl +:+ "fixes";
          "3.0" +:+ nl +:+ "first release"]
  = S (occurrences delimiter doc_two_sections).
Proof.
  apply (sections_count doc_two_sections). reflexivity.
Defined.

(** ** The release-notes fetch, for any body *)

Section Notes.
Context (env : services).
Implicit Types (w : world) (tm : gmap string handler) (topic : string).

Lemma append_empty_r (s : string) : s +:+ "" = s.
Proof. induction s as [|c s IH]; [done|]. by rewrite append_cons, IH. Qed.

Lemma getitem_second {A} (x y : A) (l : list A) :
  list_getitem (x :: y :: l) 1 = Ok y.
Proof. reflexivity. Qed.

(** X4. What the fetch returns lies in the body right after the first
    delimiter and runs to the next delimiter or to the end; it holds no
    delimiter itself. *)
Theorem release_notes_section_shape w resp r w' :
  http env release_notes_url = Ok resp →
  get_latest_release_notes env w = (Ok r, w') →
  ∃ a rest,
    text resp = a +:+ delimiter +:+ r +:+ rest
    ∧ occurrences delimiter a = 0
    ∧ occurrences delimiter r = 0
    ∧ (rest = "" ∨ ∃ r', rest = delimiter +:+ r')
    ∧ w' = after_notes w.
Proof.
  intros Hget. rewrite (release_notes_run _ _ _ Hget).
  destruct (occurrences delimiter (text resp)) as [|[|n]] eqn:Hn.
  - by rewrite (sections_zero _ Hn).
  - destruct (sections_one _ Hn) as (a & r0 & Hs & Ha & Hr & ->).
    intros [= <- <-]. exists a, "". rewrite append_empty_r. eauto 10.
  - destruct (sections_two (text resp)) as (a & b & r0 & l & Hs & Ha & Hb & ->);
      [lia|].
    intros [= <- <-]. exists a, (delimiter +:+ r0). eauto 10.
Qed.

(** X5. The fetch fails on the body exactly when the body holds no delimiter,
    and then with [IndexError]. *)
Theorem release_notes_fails_iff w resp :
  http env release_notes_url = Ok resp →
  ((get_latest_release_notes env w).1 = Raise IndexError
   ↔ occurrences delimiter (text resp) = 0)
  ∧ (is_ok (get_latest_release_notes env w).1 = true
     ↔ 1 ≤ occurrences delimiter (text resp)).
Proof.
  intros Hget. rewrite (release_notes_run _ _ _ Hget). cbn [fst].
  destruct (occurrences delimiter (text resp)) as [|[|n]] eqn:Hn.
  - rewrite (sections_zero _ Hn). cbn. split; split; (done || lia).
  - destruct (sections_one _ Hn) as (a & r0 & _ & _ & _ & ->).
    cbn. split; split; (done || lia).
  - destruct (sections_two (text resp)) as (a & b & r0 & l & _ & _ & _ & ->);
      [lia|].
    cbn. split; split; (done || lia).
Qed.

(** X6. A failure of the transport comes out of the fetch as it is, after the
    one GET; through [get_info] too, unless it is a [KeyError]. *)
Theorem release_notes_transport_failure w e :
  http env release_notes_url = Raise e →
  get_latest_release_notes env w = (Raise e, after_notes w)
  ∧ get_info env "latest_prefect_version" w
    = (Raise (if is_key_error e then InvalidTopic "latest_prefect_version"
              else e),
       after_notes w).
Proof.
  intros H.
  assert (get_latest_release_notes env w = (Raise e, after_notes w)) as Hrun
    by (run; cbn; by rewrite H).
  split; [done|]. rewrite get_info_latest, Hrun. by destruct e.
Qed.

(** X7. [get_info] of the module makes the one GET of the release notes for
    the registered topic and no call at all for any other; the credential
    slot is not touched. *)
Theorem get_info_world topic w :
  (get_info env topic w).2
  = if decide (topic = "latest_prefect_version") then after_notes w else w.
Proof.
  case_decide as Ht.
  - subst. rewrite get_info_latest.
    destruct (http env release_notes_url) as [resp|e] eqn:Hget.
    + rewrite (release_notes_run _ _ _ Hget).
      by destruct (_ ≫= _) as [|[]].
    + destruct (release_notes_transport_failure w e Hget) as [-> _].
      by destruct e.
  - unfold get_info. rewrite get_info_in_missing; [done|].
    rewrite tool_map_lookup. by case_decide.
Qed.
End Notes.

(** ** The dispatcher, for any registry *)

Section Registry.
Implicit Types (w : world) (tm : gmap string handler) (topic : string).

(** X8. What a handler returns, and every error of it that is no [KeyError],
    comes out of [get_info] as it is. *)
Theorem get_info_passes_through tm topic h w out w' :
  tm !! topic = Some h →
  run_handler h w = (out, w') →
  (∀ k, out ≠ Raise (KeyError k)) →
  get_info_in tm topic w = (out, w').
Proof.
  intros Hh Hrun Hk. rewrite (get_info_in_found _ _ _ _ Hh), Hrun.
  destruct out as [v|[]]; try done. by destruct (Hk k).
Qed.

(** X9. No [KeyError] ever leaves [get_info], whatever the registry holds. *)
Theorem get_info_never_keyerror tm topic w k :
  (get_info_in tm topic w).1 ≠ Raise (KeyError k).
Proof.
  destruct (tm !! topic) as [h|] eqn:Hh.
  - rewrite (get_info_in_found _ _ _ _ Hh).
    by destruct (run_handler h w) as [[v|[]] w'].
  - by rewrite get_info_in_missing.
Qed.

Lemma run_sync_def (c : M string) w : run_handler (sync_def c) w = c w.
Proof.
  unfold sync_def. run. by destruct (c w) as [[v|e] w'].
Qed.

Lemma run_async_def (c : M string) w : run_handler (async_def c) w = c w.
Proof. unfold async_def. run. by destruct (c w) as [[v|e] w']. Qed.

(** X10. A body registered as a plain function and the same body registered as
    a coroutine function are served alike. *)
Theorem get_info_sync_async tm topic (c : M string) w :
  get_info_in (<[topic := sync_def c]> tm) topic w
  = get_info_in (<[topic := async_def c]> tm) topic w.
Proof.
  rewrite (get_info_in_found _ topic (sync_def c))
    by apply lookup_insert_eq.
  rewrite (get_info_in_found _ topic (async_def c))
    by apply lookup_insert_eq.
  by rewrite run_sync_def, run_async_def.
Qed.
End Registry.

Lemma release_notes_section_shape_witness :
  ∃ a rest,
    doc_two_sections = a +:+ delimiter +:+ ("3.1" +:+ nl +:+ "fixes") +:+ rest
    ∧ occurrences delimiter a = 0
    ∧ occurrences delimiter ("3.1" +:+ nl +:+ "fixes") = 0
    ∧ (rest = "" ∨ ∃ r', rest = delimiter +:+ r')
    ∧ after_notes w0 = after_notes w0.
Proof.
  apply (release_notes_section_shape (notes_services doc_two_sections) w0
           (plain_page doc_two_sections)); reflexivity.
Defined.

Lemma release_notes_fails_iff_witness :
  ((get_latest_release_notes (notes_services doc_no_section) w0).1
   = Raise IndexError
   ↔ occurrences delimiter doc_no_section = 0)
  ∧ (is_ok (get_latest_release_notes (notes_services doc_no_section) w0).1
     = true
     ↔ 1 ≤ occurrences delimiter doc_no_section).
Proof.
  apply (release_notes_fails_iff (notes_services doc_no_section) w0
           (plain_page doc_no_section)).
  reflexivity.
Defined.

Lemma release_notes_transport_failure_witness :
  get_latest_release_notes down_services w0
  = (Raise (UpstreamError "404 Not Found"), after_notes w0)
  ∧ get_info down_services "latest_prefect_version" w0
    = (Raise (UpstreamError "404 Not Found"), after_notes w0).
Proof.
  apply (release_notes_transport_failure down_services w0). reflexivity.
Defined.

Lemma get_info_passes_through_witness :
  get_info_in (tool_map (notes_services doc_no_section))
    "latest_prefect_version" w0
  = (Raise IndexError, after_notes w0).
Proof.
  apply (get_info_passes_through (tool_map (notes_services doc_no_section))
           "latest_prefect_version"
           (async_def (get_latest_release_notes (notes_services doc_no_section)))
           w0).
  - vm_compute. reflexivity.
  - reflexivity.
  - discriminate.
Defined.

(** ** The searches, call after call *)

Section Sessions.
Context (env : services).
Implicit Types (w : world) (queries : list string) (ns : string).

Lemma search_tool_is_search (call : doc_version * list string) :
  search_tool env call
  = search env (match call.1 with V2 => "prefect-2" | V3 => "prefect-3" end)
      call.2.
Proof. by destruct call as [[] queries]. Qed.

(** The world a search leaves. *)
Lemma search_world ns queries w :
  (search env ns queries w).2
  = World (credential_after env w)
      (trace w ++ credential_calls w
       ++ if credential_available env w
          then [BackendQuery (credential_after env w) queries ns] else []).
Proof.
  rewrite search_run.
  unfold credential_after, credential_calls, credential_available.
  destruct (truthy (api_key w)); [done|].
  destruct (secret_store env "tpuf-api-key"); cbn; by rewrite ?app_nil_r.
Qed.

Lemma truthy_credential_after w :
  truthy (credential_after env w) = credential_sticks env w.
Proof.
  unfold credential_after, credential_sticks.
  destruct (truthy (api_key w)) eqn:Hk; [done|].
  by destruct (secret_store env "tpuf-api-key").
Qed.

(** What the next call finds, by the slot alone. *)
Lemma next_sticks w w1 :
  api_key w1 = credential_after env w →
  credential_sticks env w1 = credential_sticks env w.
Proof.
  intros H. unfold credential_sticks at 1. rewrite H, truthy_credential_after.
  unfold credential_sticks. destruct (truthy (api_key w)); [done|].
  by rewrite orb_diag.
Qed.

Lemma next_available w w1 :
  api_key w1 = credential_after env w →
  credential_available env w1 = credential_available env w.
Proof.
  intros H. unfold credential_available at 1.
  rewrite H, truthy_credential_after.
  unfold credential_sticks, credential_available.
  destruct (truthy (api_key w)); [done|].
  by destruct (secret_store env "tpuf-api-key") as [[]|].
Qed.

Lemma next_calls w w1 :
  api_key w1 = credential_after env w →
  credential_calls w1
  = if credential_sticks env w then [] else [SecretLoad "tpuf-api-key"].
Proof.
  intros H. unfold credential_calls. by rewrite H, truthy_credential_after.
Qed.

(** X11. When the slot is empty and the store fails, a search fails with the
    store's error: the backend is not asked and the slot stays as it was. *)
Theorem search_store_failure queries w e :
  truthy (api_key w) = false →
  secret_store env "tpuf-api-key" = Raise e →
  search_prefect_2x_docs env queries w
  = (Raise e, World (api_key w) (trace w ++ [SecretLoad "tpuf-api-key"]))
  ∧ search_prefect_3x_docs env queries w
    = (Raise e, World (api_key w) (trace w ++ [SecretLoad "tpuf-api-key"])).
Proof.
  intros Hk Hs. rewrite search_2x_is_search, search_3x_is_search.
  by rewrite !search_run, Hk, Hs.
Qed.

Lemma search_after_search ns1 ns2 q1 q2 w :
  credential_sticks env w = true →
  search env ns2 q2 (search env ns1 q1 w).2
  = (backend env (credential_after env w) q2 ns2,
     World (credential_after env w)
       (trace (search env ns1 q1 w).2
        ++ [BackendQuery (credential_after env w) q2 ns2])).
Proof.
  intros H. set (w1 := (search env ns1 q1 w).2).
  assert (api_key w1 = credential_after env w) as Hk
    by (unfold w1; by rewrite search_world).
  rewrite search_run, Hk, truthy_credential_after, H. reflexivity.
Qed.

(** X12. The two tools share the slot: after a search of either version with a
    credential that stays, a search of the other version goes straight to
    the backend with that credential, without a visit to the store. *)
Theorem search_shares_credential q1 q2 w :
  credential_sticks env w = true →
  search_prefect_3x_docs env q2 (search_prefect_2x_docs env q1 w).2
  = (backend env (credential_after env w) q2 "prefect-3",
     World (credential_after env w)
       (trace (search_prefect_2x_docs env q1 w).2
        ++ [BackendQuery (credential_after env w) q2 "prefect-3"]))
  ∧ search_prefect_2x_docs env q2 (search_prefect_3x_docs env q1 w).2
    = (backend env (credential_after env w) q2 "prefect-2",
       World (credential_after env w)
         (trace (search_prefect_3x_docs env q1 w).2
          ++ [BackendQuery (credential_after env w) q2 "prefect-2"])).
Proof.
  intros H. rewrite search_2x_is_search, search_3x_is_search.
  by rewrite !search_after_search.
Qed.

Lemma backend_queries_app t t' :
  backend_queries (t ++ t') = backend_queries t + backend_queries t'.
Proof. unfold backend_queries. by rewrite List.filter_app, length_app. Qed.

(** X13. Over any run of searches, of either version and with any queries: the
    store is visited once at most when the credential stays, and once per
    call when it does not (an empty credential, a failing store); the
    backend is asked once per call when the credential can be had, and
    never when it cannot. *)
Theorem session_counts (calls : list (doc_version * list string)) w :
  secret_fetches (trace (session env calls w))
  = secret_fetches (trace w)
    + (if credential_sticks env w
       then match calls with
            | [] => 0
            | _ => length (credential_calls w)
            end
       else length calls)
  ∧ backend_queries (trace (session env calls w))
    = backend_queries (trace w)
      + (if credential_available env w then length calls else 0).
Proof.
  revert w. induction calls as [|call calls IH]; intros w.
  - cbn [session length]. destruct (credential_sticks env w),
      (credential_available env w); lia.
  - cbn [session]. rewrite search_tool_is_search.
    set (ns := match call.1 with V2 => _ | V3 => _ end).
    set (w1 := (search env ns call.2 w).2).
    assert (api_key w1 = credential_after env w) as Hk
      by (unfold w1; by rewrite search_world).
    destruct (IH w1) as [Hf Hb].
    rewrite Hf, Hb, (next_sticks _ _ Hk), (next_available _ _ Hk),
      (next_calls _ _ Hk).
    unfold w1. rewrite search_world. cbn [trace length].
    rewrite !secret_fetches_app, !backend_queries_app.
    unfold credential_calls, credential_sticks, credential_available.
    destruct (truthy (api_key w)); cbn.
    + destruct calls; cbn; lia.
    + destruct (secret_store env "tpuf-api-key") as [[|c s]|];
        destruct calls; cbn; lia.
Qed.
End Sessions.

Lemma search_store_failure_witness :
  search_prefect_2x_docs failing_secret_services ["a"] w0
  = (Raise (UpstreamError "secret store down"),
     World None [SecretLoad "tpuf-api-key"])
  ∧ search_prefect_3x_docs failing_secret_services ["a"] w0
    = (Raise (UpstreamError "secret store down"),
       World None [SecretLoad "tpuf-api-key"]).
Proof.
  apply (search_store_failure failing_secret_services ["a"] w0); reflexivity.
Defined.

Lemma search_shares_credential_witness :
  search_prefect_3x_docs good_secret_services ["b"]
    (search_prefect_2x_docs good_secret_services ["a"] w0).2
  = (Ok "prefect-3:b",
     World (Some "tpuf-key")
       [SecretLoad "tpuf-api-key";
        BackendQuery (Some "tpuf-key") ["a"] "prefect-2";
        BackendQuery (Some "tpuf-key") ["b"] "prefect-3"]).
Proof.
  refine (proj1 (search_shares_credential good_secret_services ["a"] ["b"] w0 _)).
  reflexivity.
Defined.

(** ** The labels of the flattened manifest *)

Section Labels.
Implicit Types (d : pydict) (k key : pykey) (v item category manifest : json).

Lemma dict_contains_cons k k' v d :
  dict_contains k ((k', v) :: d) = key_eqb k' k || dict_contains k d.
Proof.
  unfold dict_contains. cbn [dict_lookup]. by destruct (key_eqb k' k).
Qed.

Lemma dict_keys_cons k v d : dict_keys ((k, v) :: d) = k :: dict_keys d.
Proof. reflexivity. Qed.

(** [d[k] = v] leaves the key list alone when [k] is in [d], and puts [k]
    at its end when not. *)
Lemma dict_keys_setitem d k v :
  dict_keys (dict_setitem d k v)
  = if dict_contains k d then dict_keys d else dict_keys d ++ [k].
Proof.
  induction d as [|[k' v'] d IH]; [done|].
  rewrite dict_contains_cons. cbn [dict_setitem].
  destruct (key_eqb k' k); [done|]. cbn [orb].
  rewrite !dict_keys_cons, IH. by destruct (dict_contains k d).
Qed.

Lemma dict_contains_keys k d :
  dict_contains k d = existsb (λ k', key_eqb k' k) (dict_keys d).
Proof.
  induction d as [|[k' v'] d IH]; [done|].
  rewrite dict_contains_cons, IH. reflexivity.
Qed.

Lemma key_eqb_sym a b : key_eqb a b = key_eqb b a.
Proof.
  unfold key_eqb. destruct (decide (key_norm a = key_norm b)) as [H|H].
  - by rewrite !bool_decide_eq_true_2.
  - by rewrite !bool_decide_eq_false_2.
Qed.

Lemma distinct_keys_snoc (l : list pykey) k :
  distinct_keys l = true →
  existsb (λ k', key_eqb k' k) l = false →
  distinct_keys (l ++ [k]) = true.
Proof.
  induction l as [|k0 l IH]; [done|]. cbn [distinct_keys existsb app].
  intros [Hall Hd]%andb_true_iff [Hk0 Hk]%orb_false_iff.
  apply andb_true_iff. split; [|by apply IH].
  rewrite forallb_app, Hall. cbn. by rewrite Hk0.
Qed.

Lemma distinct_keys_setitem d k v :
  distinct_keys (dict_keys d) = true →
  distinct_keys (dict_keys (dict_setitem d k v)) = true.
Proof.
  intros H. rewrite dict_keys_setitem.
  destruct (dict_contains k d) eqn:Hc; [done|].
  apply distinct_keys_snoc; [done|]. by rewrite <- dict_contains_keys.
Qed.

(** What is kept over one round is kept over the loop. *)
Lemma foldl_result_keeps {A B} (P : A → Prop) (f : A → B → result A) l :
  (∀ a x a', P a → f a x = Ok a' → P a') →
  ∀ a a', P a → foldl_result f a l = Ok a' → P a'.
Proof.
  intros Hstep. induction l as [|x l IH]; intros a a' Ha; cbn [foldl_result].
  - by intros [= <-].
  - destruct (f a x) as [a1|] eqn:Hf; [|done]. rewrite result_bind_ok.
    apply IH. by eapply Hstep.
Qed.

(** A round that succeeds stored one item of an object. *)
Lemma add_item_ok d item d' :
  add_item d item = Ok d' →
  ∃ o key, item = JObj o
           ∧ hashable (field "description" JNull item) = Ok key
           ∧ d' = dict_setitem d key (field "relative_path" JNull item).
Proof.
  destruct item as [| | | | |o]; try done.
  unfold add_item. rewrite !py_get_obj, !result_bind_ok.
  destruct (hashable (field "description" JNull (JObj o))) as [key|] eqn:Hk;
    [|done].
  rewrite result_bind_ok. intros [= <-]. by exists o, key.
Qed.

(** X14. One round of the comprehension, seen from the label list: a
    description already there keeps its place and takes the new path,
    a new one goes to the end; every other entry is as before. *)
Theorem add_item_labels d item d' :
  add_item d item = Ok d' →
  ∃ key,
    hashable (field "description" JNull item) = Ok key
    ∧ dict_keys d'
      = (if dict_contains key d then dict_keys d else dict_keys d ++ [key])
    ∧ dict_lookup key d' = Some (field "relative_path" JNull item)
    ∧ ∀ k, key_eqb key k = false → dict_lookup k d' = dict_lookup k d.
Proof.
  intros (o & key & -> & Hk & ->)%add_item_ok. exists key.
  split; [done|]. split; [apply dict_keys_setitem|]. split.
  - by rewrite dict_lookup_setitem, key_eqb_refl.
  - intros k Hne. by rewrite dict_lookup_setitem, Hne.
Qed.

Lemma add_category_distinct d category d' :
  distinct_keys (dict_keys d) = true →
  add_category d category = Ok d' →
  distinct_keys (dict_keys d') = true.
Proof.
  intros Hd. unfold add_category.
  destruct (py_get category "examples" (JArr [])) as [examples|]; [|done].
  rewrite result_bind_ok. destruct (py_iter examples) as [l|]; [|done].
  rewrite result_bind_ok.
  apply (foldl_result_keeps (λ d, distinct_keys (dict_keys d) = true));
    [|done].
  intros a x a' Ha (o & key & -> & Hk & ->)%add_item_ok.
  by apply distinct_keys_setitem.
Qed.

(** X15. The labels offered to the classifier are pairwise different in
    Python's sense, for every manifest the comprehension accepts. *)
Theorem example_items_labels_distinct manifest items :
  example_items manifest = Ok items →
  distinct_keys (dict_keys items) = true.
Proof.
  unfold example_items.
  destruct (py_get manifest "categories" (JArr [])) as [categories|]; [|done].
  rewrite result_bind_ok. destruct (py_iter categories) as [l|]; [|done].
  rewrite result_bind_ok.
  apply (foldl_result_keeps (λ d, distinct_keys (dict_keys d) = true));
    [|done].
  intros a x a' Ha. by apply add_category_distinct.
Qed.
End Labels.

Lemma add_item_labels_witness :
  ∃ key,
    hashable (JStr "retry a flow") = Ok key
    ∧ dict_keys [(KStr "retry a flow", JStr "new/retry.py"); (KStr "cache a task", JNull)]
      = (if dict_contains key
              [(KStr "retry a flow", JStr "old/retry.py"); (KStr "cache a task", JNull)]
         then [KStr "retry a flow"; KStr "cache a task"]
         else [KStr "retry a flow"; KStr "cache a task"] ++ [key])
    ∧ dict_lookup key
        [(KStr "retry a flow", JStr "new/retry.py"); (KStr "cache a task", JNull)]
      = Some (JStr "new/retry.py")
    ∧ ∀ k, key_eqb key k = false →
           dict_lookup k [(KStr "retry a flow", JStr "new/retry.py");
                          (KStr "cache a task", JNull)]
           = dict_lookup k [(KStr "retry a flow", JStr "old/retry.py");
                            (KStr "cache a task", JNull)].
Proof.
  apply (add_item_labels
           [(KStr "retry a flow", JStr "old/retry.py"); (KStr "cache a task", JNull)]
           (JObj [("description", JStr "retry a flow");
                  ("relative_path", JStr "new/retry.py")])).
  reflexivity.
Defined.

Lemma example_items_labels_distinct_witness :
  distinct_keys [KStr "retry a flow"; KStr "cache a task"] = true.
Proof.
  apply (example_items_labels_distinct manifest_with_duplicate
           [(KStr "retry a flow", JStr "new/retry.py"); (KStr "cache a task", JNull)]).
  reflexivity.
Defined.

(** ** The order of the labels *)

Section LabelOrder.
Implicit Types (d : pydict) (k key : pykey) (item category manifest : json).

Lemma filter_filter {A} (f g : A → bool) (l : list A) :
  List.filter f (List.filter g l) = List.filter (λ x, g x && f x) l.
Proof.
  induction l as [|x l IH]; [done|]. cbn [List.filter].
  destruct (g x); cbn [andb List.filter]; [|done]. by rewrite IH.
Qed.

Lemma dict_contains_setitem d k v x :
  dict_contains x (dict_setitem d k v) = key_eqb k x || dict_contains x d.
Proof.
  unfold dict_contains. rewrite dict_lookup_setitem. by destruct (key_eqb k x).
Qed.

Lemma foldl_result_app {A B} (f : A → B → result A) a (l1 l2 : list B) :
  foldl_result f a (l1 ++ l2)
  = (a1 ← foldl_result f a l1; foldl_result f a1 l2).
Proof.
  revert a. induction l1 as [|x l1 IH]; intros a; [done|].
  cbn [app foldl_result]. destruct (f a x) as [a1|]; [|done].
  by rewrite !result_bind_ok.
Qed.

(** The examples of a category, as the inner loop meets them. *)
Lemma add_category_is_loop d category :
  category_shape category = true →
  add_category d category
  = foldl_result add_item d (elements (field "examples" (JArr []) category)).
Proof.
  unfold category_shape. intros [Ho [Ha _]%andb_true_iff]%andb_true_iff.
  destruct category as [| | | | |o]; try discriminate.
  unfold add_category. rewrite py_get_obj, result_bind_ok.
  by destruct (field "examples" (JArr []) (JObj o)).
Qed.

(** The two nested loops are one loop over all examples in a row. *)
Lemma add_categories_is_loop (l : list json) d :
  forallb category_shape l = true →
  foldl_result add_category d l
  = foldl_result add_item d
      (l ≫= λ category, elements (field "examples" (JArr []) category)).
Proof.
  revert d. induction l as [|category l IH]; intros d H; [done|].
  cbn [forallb] in H. apply andb_true_iff in H as [Hc Hl].
  rewrite bind_cons, foldl_result_app. cbn [foldl_result].
  rewrite (add_category_is_loop _ _ Hc).
  destruct (foldl_result add_item d _) as [d1|]; [|done].
  rewrite !result_bind_ok. by apply IH.
Qed.

Lemma add_items_keys (l : list json) d d' :
  foldl_result add_item d l = Ok d' →
  dict_keys d'
  = dict_keys d
    ++ List.filter (λ k, negb (dict_contains k d))
         (keep_first
            (omap (λ p : json * json,
                     match hashable p.1 with Ok k => Some k | Raise _ => None end)
               (l ≫= λ item, [example_pair item]))).
Proof.
  revert d. induction l as [|item l IH]; intros d; cbn [foldl_result].
  - intros [= <-]. cbn. by rewrite app_nil_r.
  - destruct (add_item d item) as [d1|] eqn:Hadd; [|done].
    rewrite result_bind_ok. intros Hfold. rewrite (IH _ Hfold).
    apply add_item_ok in Hadd as (o & key & -> & Hk & ->).
    rewrite bind_cons. cbn [app omap list_omap example_pair fst].
    rewrite Hk. cbn [keep_first List.filter].
    rewrite dict_keys_setitem, filter_filter.
    rewrite (List.filter_ext
               (λ k, negb (dict_contains k
                             (dict_setitem d key
                                (field "relative_path" JNull (JObj o)))))
               (λ x, negb (key_eqb key x) && negb (dict_contains x d)))
      by (intros x; rewrite dict_contains_setitem; apply negb_orb).
    destruct (dict_contains key d) eqn:Hc; cbn [negb]; [done|].
    by rewrite <- app_assoc.
Qed.

Lemma bind_bind_list {A B C} (f : A → list B) (g : B → list C) (l : list A) :
  (l ≫= f) ≫= g = l ≫= λ x, f x ≫= g.
Proof.
  induction l as [|x l IH]; [done|]. by rewrite !bind_cons, bind_app, IH.
Qed.

Lemma filter_all {A} (f : A → bool) (l : list A) :
  (∀ x, f x = true) → List.filter f l = l.
Proof.
  intros H. induction l as [|x l IH]; [done|].
  cbn [List.filter]. by rewrite H, IH.
Qed.

(** The label list against the accessors the comprehension is built from. *)
Lemma labels_by_accessors manifest :
  manifest_shape manifest = true →
  ∃ items, example_items manifest = Ok items
           ∧ dict_keys items = keep_first (description_keys manifest).
Proof.
  unfold manifest_shape. intros [Ho [Ha Hl]%andb_true_iff]%andb_true_iff.
  destruct manifest as [| | | | |o]; try discriminate.
  unfold example_items, description_keys, spec_examples, category_examples.
  rewrite py_get_obj, result_bind_ok.
  destruct (field "categories" (JArr []) (JObj o)) as [| | | |l|] eqn:Hc;
    try discriminate.
  cbn [elements py_iter] in Hl |- *. rewrite result_bind_ok.
  destruct (add_categories_shape l [] Hl) as (items & Hfold & _).
  exists items. split; [done|].
  rewrite (add_categories_is_loop _ _ Hl) in Hfold.
  rewrite (add_items_keys _ _ _ Hfold), bind_bind_list.
  cbn [dict_keys fmap list_fmap app]. by apply filter_all.
Qed.

(** Where a loop first fails, the loop fails, whatever follows. *)
Lemma foldl_result_first_failure {A B} (f : A → B → result A) a a1 x e
    (l1 l2 : list B) :
  foldl_result f a l1 = Ok a1 → f a1 x = Raise e →
  foldl_result f a (l1 ++ x :: l2) = Raise e.
Proof.
  intros H1 Hx. rewrite foldl_result_app, H1, result_bind_ok.
  cbn [foldl_result]. by rewrite Hx.
Qed.

(** X17. A category that is no object, after well-shaped ones, stops the
    flattening with [AttributeError], whatever follows it. *)
Theorem example_items_bad_category o (l1 l2 : list json) category :
  field "categories" (JArr []) (JObj o) = JArr (l1 ++ category :: l2) →
  forallb category_shape l1 = true →
  is_obj category = false →
  example_items (JObj o) = Raise (AttributeError "get").
Proof.
  intros Hc Hl Hbad. unfold example_items.
  rewrite py_get_obj, result_bind_ok, Hc. cbn [py_iter].
  rewrite result_bind_ok.
  destruct (add_categories_shape l1 [] Hl) as (d1 & Hfold & _).
  apply (foldl_result_first_failure _ _ _ _ _ _ _ Hfold).
  by destruct category.
Qed.

(** X18. An example whose description is a list or an object, after well-shaped
    ones, stops the category with [TypeError]: it cannot be a key. *)
Theorem add_category_unhashable d co (l1 l2 : list json) io e :
  field "examples" (JArr []) (JObj co) = JArr (l1 ++ JObj io :: l2) →
  forallb item_shape l1 = true →
  hashable (field "description" JNull (JObj io)) = Raise e →
  add_category d (JObj co) = Raise (TypeError "unhashable type").
Proof.
  intros He Hl Hbad. unfold add_category.
  rewrite py_get_obj, result_bind_ok, He. cbn [py_iter].
  rewrite result_bind_ok.
  destruct (add_items_shape l1 d Hl) as (d1 & Hfold & _).
  apply (foldl_result_first_failure _ _ _ _ _ _ _ Hfold).
  unfold add_item. rewrite !py_get_obj, !result_bind_ok.
  by destruct (field "description" JNull (JObj io)).
Qed.

(** X19. A key that is there but holds [null], a boolean or a number is not a
    missing key: "categories" of that kind stops the flattening with
    [TypeError], and so does "examples" of that kind in a category after
    well-shaped ones. *)
Theorem example_items_not_iterable o v :
  not_iterable v = true →
  (obj_lookup "categories" o = Some v →
   example_items (JObj o) = Raise (TypeError "object is not iterable"))
  ∧ (∀ (l1 l2 : list json) co,
       field "categories" (JArr []) (JObj o) = JArr (l1 ++ JObj co :: l2) →
       forallb category_shape l1 = true →
       obj_lookup "examples" co = Some v →
       example_items (JObj o) = Raise (TypeError "object is not iterable")).
Proof.
  intros Hv. split.
  - intros Hc. unfold example_items. rewrite py_get_obj. cbn [field].
    rewrite Hc. by destruct v.
  - intros l1 l2 co Hc Hl He. unfold example_items.
    rewrite py_get_obj, result_bind_ok, Hc. cbn [py_iter].
    rewrite result_bind_ok.
    destruct (add_categories_shape l1 [] Hl) as (d1 & Hfold & _).
    apply (foldl_result_first_failure _ _ _ _ _ _ _ Hfold).
    unfold add_category. rewrite py_get_obj. cbn [field]. rewrite He.
    by destruct v.
Qed.
End LabelOrder.

Lemma example_items_bad_category_witness :
  example_items
    (JObj [("categories",
            JArr [JObj [("examples", JArr [])]; JStr "tasks"; JNull])])
  = Raise (AttributeError "get").
Proof.
  apply (example_items_bad_category _ [JObj [("examples", JArr [])]] [JNull]
           (JStr "tasks")); reflexivity.
Defined.

Lemma add_category_unhashable_witness :
  add_category []
    (JObj [("examples",
            JArr [JObj [("description", JStr "retry a flow")];
                  JObj [("description", JArr [JStr "a"; JStr "b"])]])])
  = Raise (TypeError "unhashable type").
Proof.
  apply (add_category_unhashable [] _
           [JObj [("description", JStr "retry a flow")]] []
           [("description", JArr [JStr "a"; JStr "b"])]
           (TypeError "unhashable type")); reflexivity.
Defined.

Lemma example_items_not_iterable_witness :
  example_items (JObj [("categories", JNull)])
  = Raise (TypeError "object is not iterable").
Proof.
  refine (proj1 (example_items_not_iterable [("categories", JNull)] JNull _) _);
    reflexivity.
Defined.

(** ** The retriever: failures and calls *)

Section RetrieverCalls.
Context (env : services).
Implicit Types (w : world) (related_to : string) (items : pydict).

(** X20. A failure before the classification (the manifest cannot be fetched,
    is no JSON, or cannot be flattened) ends the run with that error: the
    classifier is not consulted and nothing else is fetched. *)
Theorem code_example_early_failure related_to w e :
  http env manifest_url = Raise e
  ∨ (∃ response, http env manifest_url = Ok response
                 ∧ body_json response = Raise e)
  ∨ (∃ response manifest, http env manifest_url = Ok response
                          ∧ body_json response = Ok manifest
                          ∧ example_items manifest = Raise e) →
  get_prefect_code_example env related_to w = (Raise e, after_manifest w).
Proof.
  rewrite code_example_run.
  intros [H1|[(response & H1 & H2)|(response & manifest & H1 & H2 & H3)]].
  - by rewrite H1.
  - by rewrite H1, H2.
  - by rewrite H1, H2, H3.
Qed.

(** X21. A failure of the classifier ends the run with that error before any
    example is fetched; a failure of the GET of the example ends it with
    that error. *)
Theorem code_example_late_failure related_to w response manifest items e :
  http env manifest_url = Ok response →
  body_json response = Ok manifest →
  example_items manifest = Ok items →
  (classifier env related_to (dict_keys items) = Raise e →
   get_prefect_code_example env related_to w
   = (Raise e, after_classify related_to items w))
  ∧ (∀ key path,
       classifier env related_to (dict_keys items) = Ok key →
       dict_lookup key items = Some path →
       http env (base_url +:+ "/" +:+ py_str env path) = Raise e →
       get_prefect_code_example env related_to w
       = (Raise e,
          after_fetch related_to items
            (base_url +:+ "/" +:+ py_str env path) w)).
Proof.
  intros H1 H2 H3. rewrite code_example_run, H1, H2, H3. split.
  - by intros ->.
  - intros key path -> -> Hget. cbn zeta. by rewrite Hget.
Qed.

Lemma http_gets_app t t' : http_gets (t ++ t') = http_gets t + http_gets t'.
Proof. unfold http_gets. by rewrite List.filter_app, length_app. Qed.

Lemma classifications_app t t' :
  classifications (t ++ t') = classifications t + classifications t'.
Proof. unfold classifications. by rewrite List.filter_app, length_app. Qed.

(** X22. Whatever its outcome, a run of the retriever starts with the GET of
    the manifest, makes two GETs and one classification at most, never
    goes to the secret store or the backend, and leaves the credential
    slot alone. *)
Theorem code_example_calls related_to w :
  ∃ more,
    (get_prefect_code_example env related_to w).2
    = World (api_key w) (trace w ++ HttpGet manifest_url :: more)
    ∧ http_gets more ≤ 1
    ∧ classifications more ≤ 1
    ∧ secret_fetches more = 0
    ∧ backend_queries more = 0.
Proof.
  rewrite code_example_run.
  unfold after_manifest, after_classify, after_fetch.
  destruct (http env manifest_url) as [response|];
    [|exists []; split; [reflexivity | cbn; lia]].
  destruct (body_json response) as [manifest|];
    [|exists []; split; [reflexivity | cbn; lia]].
  destruct (example_items manifest) as [items|];
    [|exists []; split; [reflexivity | cbn; lia]].
  destruct (classifier env related_to (dict_keys items)) as [key|];
    [|eexists [_]; split; [reflexivity | cbn; lia]].
  destruct (dict_lookup key items) as [path|];
    [|eexists [_]; split; [reflexivity | cbn; lia]].
  cbn zeta.
  destruct (http env (base_url +:+ "/" +:+ py_str env path));
    (eexists [_; _]; split; [reflexivity | cbn; lia]).
Qed.

(** X23. An example without "relative_path" is stored with [None] for its path;
    when it is the one chosen, the retriever does not fail: it fetches
    [base_url/None]. *)
Theorem code_example_missing_path related_to w response manifest items key :
  http env manifest_url = Ok response →
  body_json response = Ok manifest →
  example_items manifest = Ok items →
  classifier env related_to (dict_keys items) = Ok key →
  dict_lookup key items = Some JNull →
  get_prefect_code_example env related_to w
  = (match http env (base_url +:+ "/None") with
     | Ok fetched =>
         Ok (code_example_text (base_url +:+ "/None") (text fetched))
     | Raise e => Raise e
     end,
     after_fetch related_to items (base_url +:+ "/None") w)
  ∧ (∀ d o k,
       obj_lookup "relative_path" o = None →
       hashable (field "description" JNull (JObj o)) = Ok k →
       ∃ d', add_item d (JObj o) = Ok d' ∧ dict_lookup k d' = Some JNull).
Proof.
  intros H1 H2 H3 H4 H5. split.
  - rewrite code_example_run, H1, H2, H3, H4, H5. cbn zeta beta iota.
    change ("/" +:+ py_str env JNull) with "/None".
    by destruct (http env (base_url +:+ "/None")).
  - intros d o k Hp Hk. eexists. split.
    + unfold add_item. by rewrite !py_get_obj, !result_bind_ok, Hk.
    + rewrite dict_lookup_setitem, key_eqb_refl. cbn [field]. by rewrite Hp.
Qed.
End RetrieverCalls.

Lemma code_example_early_failure_witness :
  get_prefect_code_example down_services scenario_question w0
  = (Raise (UpstreamError "404 Not Found"), after_manifest w0).
Proof.
  apply (code_example_early_failure down_services scenario_question w0).
  left. reflexivity.
Defined.

Lemma code_example_late_failure_witness :
  get_prefect_code_example refusing_classifier_services scenario_question w0
  = (Raise (UpstreamError "classifier down"),
     after_classify scenario_question
       [(KStr "retry a flow", JStr "examples/retry.py")] w0).
Proof.
  refine (proj1 (code_example_late_failure refusing_classifier_services
                   scenario_question w0
                   (Response scenario_manifest_text (Ok scenario_manifest))
                   scenario_manifest
                   [(KStr "retry a flow", JStr "examples/retry.py")]
                   (UpstreamError "classifier down") _ _ _) _);
    reflexivity.
Defined.

Lemma code_example_missing_path_witness :
  get_prefect_code_example without_path_services scenario_question w0
  = (Raise (UpstreamError "404 Not Found"),
     after_fetch scenario_question [(KStr "retry a flow", JNull)]
       (base_url +:+ "/None") w0).
Proof.
  refine (proj1 (code_example_missing_path without_path_services
                   scenario_question w0
                   (Response "{}" (Ok manifest_without_path))
                   manifest_without_path
                   [(KStr "retry a flow", JNull)]
                   (KStr "retry a flow") _ _ _ _ _));
    reflexivity.
Defined.

(** ** The comprehension against the specification's reading *)

Section Readings.
Implicit Types (k : pykey) (v item category manifest : json).

Lemma obj_lookup_map (items : list (string * json)) name :
  obj_lookup name items = obj_map items !! name.
Proof.
  induction items as [|[n v] items IH]; [done|].
  unfold obj_map in *. rewrite reverse_cons, list_to_map_app, lookup_union.
  rewrite <- IH. cbn [obj_lookup].
  change (list_to_map [(n, v)] : gmap string json) with ({[n := v]} : gmap string json).
  rewrite lookup_singleton.
  destruct (obj_lookup name items); by case_decide.
Qed.

Lemma member_field name default v : member name default v = field name default v.
Proof. destruct v; try done. cbn. by rewrite obj_lookup_map. Qed.

Lemma scalar_key_hashable v :
  hashable v = match scalar_key v with
               | Some k => Ok k
               | None => Raise (TypeError "unhashable type")
               end.
Proof. by destruct v. Qed.

Lemma same_key_eqb a b : same_key a b = key_eqb a b.
Proof.
  unfold key_eqb, same_key.
  destruct a as [|[]|x|s], b as [|[]|y|t]; cbn [key_number key_norm];
    repeat match goal with
           | |- context [Z.eqb ?u ?v] => destruct (Z.eqb_spec u v)
           | |- context [String.eqb ?u ?v] => destruct (String.eqb_spec u v)
           end;
    subst; symmetry;
    first [ apply bool_decide_eq_true_2; congruence
          | apply bool_decide_eq_false_2; congruence ].
Qed.

Lemma bind_ext_list {A B} (f g : A → list B) (l : list A) :
  (∀ x, f x = g x) → l ≫= f = l ≫= g.
Proof.
  intros H. induction l as [|x l IH]; [done|]. by rewrite !bind_cons, H, IH.
Qed.

Lemma all_examples_eq manifest : all_examples manifest = spec_examples manifest.
Proof.
  unfold all_examples, spec_examples, category_examples, example_pair.
  rewrite member_field. apply bind_ext_list. intros category.
  rewrite member_field. apply bind_ext_list. intros item.
  by rewrite !member_field.
Qed.

Lemma last_path_eq k (l : list (json * json)) :
  last_path k l = last_binding k l.
Proof.
  induction l as [|[description path] l IH]; [done|].
  cbn [last_path last_binding]. rewrite IH, scalar_key_hashable.
  destruct (last_binding k l); [done|].
  destruct (scalar_key description); [|done]. by rewrite same_key_eqb.
Qed.

Lemma forallb_ext_list {A} (f g : A → bool) (l : list A) :
  (∀ x, f x = g x) → forallb f l = forallb g l.
Proof.
  intros H. induction l as [|x l IH]; [done|]. cbn. by rewrite H, IH.
Qed.

Lemma example_ok_eq item : example_ok item = item_shape item.
Proof.
  unfold example_ok, item_shape. rewrite member_field, scalar_key_hashable.
  by destruct (scalar_key _).
Qed.

Lemma category_ok_eq category : category_ok category = category_shape category.
Proof.
  unfold category_ok, category_shape. rewrite member_field.
  rewrite (forallb_ext_list _ _ _ example_ok_eq). by rewrite andb_assoc.
Qed.

Lemma expected_shape_eq manifest :
  expected_shape manifest = manifest_shape manifest.
Proof.
  unfold expected_shape, manifest_shape. rewrite member_field.
  rewrite (forallb_ext_list _ _ _ category_ok_eq). by rewrite andb_assoc.
Qed.

Lemma first_appearances_eq (l : list pykey) : first_appearances l = keep_first l.
Proof.
  induction l as [|k l IH]; [done|]. cbn [first_appearances keep_first].
  rewrite IH. f_equal. apply List.filter_ext. intros k'.
  by rewrite same_key_eqb.
Qed.

Lemma omap_ext_list {A B} (f g : A → option B) (l : list A) :
  (∀ x, f x = g x) → omap f l = omap g l.
Proof.
  intros H. induction l as [|x l IH]; [done|]. cbn. by rewrite H, IH.
Qed.

Lemma label_list_eq manifest :
  label_list manifest = keep_first (description_keys manifest).
Proof.
  unfold label_list, description_keys.
  rewrite first_appearances_eq, all_examples_eq. f_equal.
  apply omap_ext_list. intros [description path]. cbn [fst].
  rewrite scalar_key_hashable. by destruct (scalar_key description).
Qed.

(** C9. For a manifest of the expected shape the comprehension succeeds
    and yields the mapping description -> relative_path over all examples
    of all categories: for every key, the path of the last example with
    that description.  A manifest object without "categories" gives the
    empty mapping and a category object without "examples" adds nothing,
    neither raising. *)
Theorem example_items_flatten :
  (∀ manifest, expected_shape manifest = true →
     ∃ items, example_items manifest = Ok items
              ∧ ∀ k, dict_lookup k items
                     = last_path k (all_examples manifest))
  ∧ (∀ o, obj_map o !! "categories" = None → example_items (JObj o) = Ok [])
  ∧ (∀ d o, obj_map o !! "examples" = None → add_category d (JObj o) = Ok d).
Proof.
  destruct flatten_by_accessors as (Hflat & Hcat & Hex).
  split; [|split].
  - intros manifest Hshape. rewrite expected_shape_eq in Hshape.
    destruct (Hflat manifest Hshape) as (items & Hitems & Hlook).
    exists items. split; [done|]. intros k.
    by rewrite last_path_eq, all_examples_eq.
  - intros o Ho. apply Hcat. by rewrite obj_lookup_map.
  - intros d o Ho. apply Hex. by rewrite obj_lookup_map.
Qed.

(** X16. The labels the classifier is offered are the descriptions of the
    manifest in the order of their first appearance, each once. *)
Theorem example_items_label_order manifest :
  expected_shape manifest = true →
  ∃ items, example_items manifest = Ok items
           ∧ dict_keys items = label_list manifest.
Proof.
  rewrite expected_shape_eq, label_list_eq. apply labels_by_accessors.
Qed.
End Readings.

(** C9 at a sample: a description used twice, a category without
    "examples", an example without "relative_path". *)
Lemma example_items_flatten_witness :
  ∃ items,
    example_items manifest_with_duplicate = Ok items
    ∧ dict_lookup (KStr "retry a flow") items = Some (JStr "new/retry.py")
    ∧ dict_lookup (KStr "cache a task") items = Some JNull
    ∧ dict_lookup (KStr "deploy a flow") items = None.
Proof.
  destruct (proj1 example_items_flatten manifest_with_duplicate eq_refl)
    as (items & Hitems & Hlook).
  exists items. split; [exact Hitems|]. rewrite !Hlook.
  vm_compute. repeat split.
Defined.

(** X16 at the same sample. *)
Lemma example_items_label_order_witness :
  ∃ items,
    example_items manifest_with_duplicate = Ok items
    ∧ dict_keys items = [KStr "retry a flow"; KStr "cache a task"].
Proof.
  destruct (example_items_label_order manifest_with_duplicate eq_refl)
    as (items & Hitems & Hkeys).
  exists items. split; [exact Hitems|]. rewrite Hkeys. reflexivity.
Defined.
